(** * Draupnir: image and instance provisioning

    A shallow embedding of the HTTP handlers of [routes/images.go]
    ([Images.List], [Images.Create], [Images.Done]), of the error values of
    [routes/errors.go], and of the lifecycle operations the handlers'
    callers and tests rely on.  The handlers run in a state monad over a
    [World] that holds the Store's tables and the sequence of calls made to
    the Store and to the Executor. *)

From Stdlib Require Import ZArith List String Ascii Bool Lia.
From Stdlib Require Import Sorting.Permutation Sorting.Sorted.
Import ListNotations.

Local Open Scope string_scope.
Local Open Scope list_scope.
Local Open Scope Z_scope.

(** ** Go values *)

(** A Go [(value, error)] pair: exactly one side is meaningful. *)
Inductive result (A : Type) : Type :=
| OK (a : A)
| Err (e : string).
Arguments OK {A} a.
Arguments Err {A} e.

(** [net/http] status codes used by the handlers and by the error table. *)
Module http.
Definition StatusOK : Z := 200.
Definition StatusCreated : Z := 201.
Definition StatusNoContent : Z := 204.
Definition StatusBadRequest : Z := 400.
Definition StatusUnauthorized : Z := 401.
Definition StatusNotFound : Z := 404.
Definition StatusConflict : Z := 409.
Definition StatusUnprocessableEntity : Z := 422.
Definition StatusInternalServerError : Z := 500.
End http.

(** [strconv.Atoi]: an optional sign, then one or more decimal digits, the
    value within the range of a 64-bit [int]. *)
Module strconv.
Definition digit (c : ascii) : option Z :=
  let n := Z.of_nat (nat_of_ascii c) in
  if (48 <=? n) && (n <=? 57) then Some (n - 48) else None.

Fixpoint digits (s : string) (acc : Z) : option Z :=
  match s with
  | EmptyString => Some acc
  | String c s' =>
      match digit c with
      | Some d => digits s' (10 * acc + d)
      | None => None
      end
  end.

Definition MinInt : Z := - 2 ^ 63.
Definition MaxInt : Z := 2 ^ 63 - 1.

Definition unsigned (neg : bool) (body : string) : result Z :=
  match body with
  | EmptyString => Err "invalid syntax"
  | _ =>
      match digits body 0 with
      | None => Err "invalid syntax"
      | Some n =>
          let v := if neg then - n else n in
          if (MinInt <=? v) && (v <=? MaxInt) then OK v
          else Err "value out of range"
      end
  end.

Definition Atoi (s : string) : result Z :=
  match s with
  | EmptyString => Err "invalid syntax"
  | String c s' =>
      if Ascii.eqb c "-"%char then unsigned true s'
      else if Ascii.eqb c "+"%char then unsigned false s'
      else unsigned false s
  end.
End strconv.

(** ** models *)

Module Image.
Record t : Type := mk {
  ID : Z;
  BackedUpAt : Z;
  Ready : bool;
  CreatedAt : Z;
  UpdatedAt : Z
}.
End Image.

Module Instance.
Record t : Type := mk {
  ID : Z;
  ImageID : Z;
  Port : Z;
  CreatedAt : Z;
  UpdatedAt : Z
}.
End Instance.

(** Modelled from the spec: [models.NewImage] is not part of the sources;
    a new image carries the backup time and [ready = false] (section 4.1,
    "persists a new Image record with ready=false"). *)
Definition NewImage (backedUpAt : Z) : Image.t :=
  Image.mk 0 backedUpAt false 0 0.

(** ** routes/errors.go *)

Module ErrorSource.
(* [Param] is the Go field [Parameter]. *)
Record t : Type := mk { Pointer : string; Param : string }.
End ErrorSource.

Module APIError.
Record t : Type := mk {
  ID : string;
  Status : string;
  Code : string;
  Title : string;
  Detail : string;
  Source : ErrorSource.t
}.
End APIError.

Definition noSource : ErrorSource.t := ErrorSource.mk "" "".

Definition internalServerError : APIError.t :=
  APIError.mk "internal_server_error" "500" "internal_server_error"
    "Internal Server Error" "Something went wrong :(" noSource.

Definition notFoundError : APIError.t :=
  APIError.mk "resource_not_found" "404" "resource_not_found"
    "Resource Not Found" "The resource you requested could not be found"
    noSource.

Definition unauthorizedError : APIError.t :=
  APIError.mk "unauthorized" "401" "unauthorized"
    "Unauthorized" "You do not have permission to view this resource"
    noSource.

Definition imageNotFoundError : APIError.t :=
  APIError.mk "resource_not_found" "404" "resource_not_found"
    "Image Not Found" "The image you specified could not be found" noSource.

Definition badImageIDError : APIError.t :=
  APIError.mk "bad_request" "400" "bad_request"
    "Bad Request" "The image ID provided is not valid"
    (ErrorSource.mk "" "image_id").

Definition unreadyImageError : APIError.t :=
  APIError.mk "unprocessable_entity" "422" "unprocessable_entity"
    "Image Not Ready" "The specified image is not ready to be used"
    (ErrorSource.mk "" "image_id").

Definition cannotDeleteImageWithInstancesError : APIError.t :=
  APIError.mk "unprocessable_entity" "422" "unprocessable_entity"
    "Image Has Instances" "Cannot delete an image that has instances"
    noSource.

Definition invalidJSONError : APIError.t :=
  APIError.mk "bad_request" "400" "bad_request"
    "Invalid JSON" "Your JSON is malformed" noSource.

(** The HTTP status an [APIError] announces in its [Status] field. *)
Definition status_of (e : APIError.t) : Z :=
  match strconv.Atoi (APIError.Status e) with
  | OK n => n
  | Err _ => http.StatusInternalServerError
  end.

(** The error taxonomy of the specification (section 7), read off the
    status code of a response. *)
Inductive ErrorKind : Type :=
| NotFound | Conflict | Unprocessable | Unauthorized | InternalError
| BadRequest.

Definition kind_of_status (code : Z) : option ErrorKind :=
  if code =? http.StatusNotFound then Some NotFound
  else if code =? http.StatusConflict then Some Conflict
  else if code =? http.StatusUnprocessableEntity then Some Unprocessable
  else if code =? http.StatusUnauthorized then Some Unauthorized
  else if code =? http.StatusInternalServerError then Some InternalError
  else if code =? http.StatusBadRequest then Some BadRequest
  else None.

Definition kind_of (e : APIError.t) : option ErrorKind :=
  kind_of_status (status_of e).

(** ** The response writer *)

Inductive Payload : Type :=
| Text (s : string)
| ImageJSON (i : Image.t)
| ImagesJSON (l : list Image.t)
| ErrorJSON (e : APIError.t).

(** A response recorder in the manner of [httptest.ResponseRecorder]: the
    first [WriteHeader] fixes the status, a write without one implies 200.
    [Closed] stands for a connection on which writes fail. *)
Module ResponseRecorder.
Record t : Type := mk {
  Code : Z;
  wroteHeader : bool;
  Body : list Payload;
  Closed : bool
}.
End ResponseRecorder.
Definition ResponseWriter : Type := ResponseRecorder.t.

Definition NewRecorder : ResponseWriter :=
  ResponseRecorder.mk http.StatusOK false [] false.

Definition WriteHeader (w : ResponseWriter) (code : Z) : ResponseWriter :=
  if ResponseRecorder.wroteHeader w then w
  else ResponseRecorder.mk code true (ResponseRecorder.Body w)
         (ResponseRecorder.Closed w).

Definition Write (w : ResponseWriter) (p : Payload)
  : ResponseWriter * option string :=
  let w := WriteHeader w http.StatusOK in
  if ResponseRecorder.Closed w then (w, Some "write: broken pipe")
  else (ResponseRecorder.mk (ResponseRecorder.Code w) true
          (ResponseRecorder.Body w ++ [p]) false, None).

(** [time.Time]'s [MarshalJSON] refuses a year outside 0..9999; a time is
    its seconds since 1970 in UTC, so the years 0 to 9999 are the seconds
    from -62167219200 up to, not including, 253402300800. *)
Definition marshals_time (t : Z) : bool :=
  (-62167219200 <=? t) && (t <? 253402300800).

Definition marshals_image (i : Image.t) : bool :=
  marshals_time (Image.BackedUpAt i) && marshals_time (Image.CreatedAt i)
  && marshals_time (Image.UpdatedAt i).

(** Whether [encoding/json] can marshal the value. *)
Definition marshals (p : Payload) : bool :=
  match p with
  | Text _ => true
  | ImageJSON i => marshals_image i
  | ImagesJSON l => forallb marshals_image l
  | ErrorJSON _ => true
  end.

(** [json.NewEncoder(w).Encode(v)]: the value is marshalled first, and
    when that fails nothing is written, not even the header; otherwise it
    fails when the write fails. *)
Definition Encode (w : ResponseWriter) (p : Payload)
  : ResponseWriter * option string :=
  if marshals p then Write w p
  else (w, Some "json: error calling MarshalJSON for type time.Time").

Definition newline : string := String (ascii_of_nat 10) EmptyString.

(** [http.Error]: status, then the message and a newline; a failed write
    is not reported. *)
Definition http_Error (w : ResponseWriter) (msg : string) (code : Z)
  : ResponseWriter :=
  fst (Write (WriteHeader w code) (Text (String.append msg newline))).

(** [RenderError] of routes/errors.go. *)
Definition RenderError (w : ResponseWriter) (statuscode : Z)
  (err : APIError.t) : ResponseWriter :=
  fst (Encode (WriteHeader w statuscode) (ErrorJSON err)).

(** ** Requests *)

Module Request.
Record t : Type := mk {
  Vars : list (string * string);   (* mux.Vars(r) *)
  Body : string;                   (* r.Body *)
  Email : option string            (* identity set by the auth layer *)
}.
End Request.

(** A Go map read: the zero value when the key is absent. *)
Fixpoint mux_Vars (vars : list (string * string)) (key : string) : string :=
  match vars with
  | [] => ""
  | (k, v) :: rest => if String.eqb k key then v else mux_Vars rest key
  end.

Module createImageRequest.
Record t : Type := mk { BackedUpAt : Z }.
End createImageRequest.

(** ** Calls to the collaborators *)

Inductive Call : Type :=
| ImageStore_List
| ImageStore_Get (id : Z)
| ImageStore_Create (image : Image.t)
| ImageStore_MarkAsReady (image : Image.t)
| ImageStore_Destroy (image : Image.t)
| InstanceStore_List
| InstanceStore_Get (id : Z)
| InstanceStore_Create (instance : Instance.t)
| InstanceStore_Destroy (instance : Instance.t)
| Executor_CreateBtrfsSubvolume (id : Z)
| Executor_FinaliseImage (id : Z)
| Executor_DestroyImage (id : Z)
| Executor_CreateInstance (imageID : Z)
| Executor_DestroyInstance (id : Z).

Definition is_executor_call (c : Call) : bool :=
  match c with
  | Executor_CreateBtrfsSubvolume _ | Executor_FinaliseImage _
  | Executor_DestroyImage _ | Executor_CreateInstance _
  | Executor_DestroyInstance _ => true
  | _ => false
  end.

(** A Store call that writes. *)
Definition is_store_write (c : Call) : bool :=
  match c with
  | ImageStore_Create _ | ImageStore_MarkAsReady _ | ImageStore_Destroy _
  | InstanceStore_Create _ | InstanceStore_Destroy _ => true
  | _ => false
  end.

Module Event.
Record t : Type := mk { call : Call; err : option string }.
End Event.

(** ** The world: Store tables and the calls made so far *)

Module World.
Record t : Type := mk {
  images : list Image.t;
  image_seq : Z;
  instances : list Instance.t;
  instance_seq : Z;
  now : Z;
  history : list Event.t
}.
End World.
Definition World : Type := World.t.

Definition record (c : Call) (e : option string) (w : World) : World :=
  World.mk (World.images w) (World.image_seq w) (World.instances w)
    (World.instance_seq w) (World.now w)
    (World.history w ++ [Event.mk c e]).

Definition set_images (l : list Image.t) (seq : Z) (w : World) : World :=
  World.mk l seq (World.instances w) (World.instance_seq w) (World.now w)
    (World.history w).

Definition set_instances (l : list Instance.t) (seq : Z) (w : World)
  : World :=
  World.mk (World.images w) (World.image_seq w) l seq (World.now w)
    (World.history w).

Definition empty_world : World := World.mk [] 1 [] 1 0 [].

(** The state monad of the handlers. *)
Definition M (A : Type) : Type := World -> A * World.

Definition ret {A} (a : A) : M A := fun w => (a, w).

Definition bind {A B} (m : M A) (k : A -> M B) : M B :=
  fun w => let (a, w') := m w in k a w'.

Notation "x <- m ;; k" := (bind m (fun x => k))
  (at level 61, m at next level, right associativity).

Definition find_image (id : Z) (l : list Image.t) : option Image.t :=
  find (fun i => Image.ID i =? id) l.

Definition find_instance (id : Z) (l : list Instance.t)
  : option Instance.t :=
  find (fun i => Instance.ID i =? id) l.

Definition mark_ready (now : Z) (i : Image.t) : Image.t :=
  Image.mk (Image.ID i) (Image.BackedUpAt i) true (Image.CreatedAt i) now.

Definition no_rows : string := "sql: no rows in result set".

(** ** The collaborators *)

(** The handlers reach the Store and the Executor through interfaces
    ([store.ImageStore], [exec.Executor]); the tests plug in doubles whose
    methods are closures.  Here the environment says, for each call and the
    calls made before it, whether the collaborator fails; it also holds the
    JSON decoder of request bodies and the identity of the upload user
    ([auth.UPLOAD_USER_EMAIL]), neither of which is part of the sources. *)
Module Env.
Record t : Type := mk {
  fault : Call -> list Event.t -> option string;
  port : list Event.t -> Z;
  decode : string -> result createImageRequest.t;
  UPLOAD_USER_EMAIL : string
}.
End Env.

(** One call to a collaborator: the environment may fail it, in which
    case nothing else happens; otherwise [run] is its effect.  Either way
    the call and its outcome are appended to the history. *)
Definition attempt {A} (E : Env.t) (c : Call) (run : World -> result A * World)
  : M (result A) :=
  fun w =>
    match Env.fault E c (World.history w) with
    | Some e => (Err e, record c (Some e) w)
    | None =>
        let (r, w') := run w in
        (r, record c (match r with OK _ => None | Err e => Some e end) w')
    end.

(** *** Store *)

(** Modelled from the spec: the [store] package ([store.ImageStore] and
    its implementation) is not part of the sources.  Section 6 gives its
    contract (create, read, list, update, delete, each consistent per
    call); identifiers are assigned at creation and never reused
    (section 3).  A table is a list of rows, a failed call leaves it as it
    was. *)
Module ImageStore.
Definition List (E : Env.t) : M (result (list Image.t)) :=
  attempt E ImageStore_List (fun w => (OK (World.images w), w)).

Definition Get (E : Env.t) (id : Z) : M (result Image.t) :=
  attempt E (ImageStore_Get id) (fun w =>
    match find_image id (World.images w) with
    | Some i => (OK i, w)
    | None => (Err no_rows, w)
    end).

Definition Create (E : Env.t) (image : Image.t) : M (result Image.t) :=
  attempt E (ImageStore_Create image) (fun w =>
    let row := Image.mk (World.image_seq w) (Image.BackedUpAt image)
                 (Image.Ready image) (World.now w) (World.now w) in
    (OK row,
     set_images (World.images w ++ [row]) (World.image_seq w + 1) w)).

Definition MarkAsReady (E : Env.t) (image : Image.t) : M (result Image.t) :=
  attempt E (ImageStore_MarkAsReady image) (fun w =>
    match find_image (Image.ID image) (World.images w) with
    | None => (Err no_rows, w)
    | Some row =>
        (OK (mark_ready (World.now w) row),
         set_images
           (map (fun i => if Image.ID i =? Image.ID image
                          then mark_ready (World.now w) i else i)
              (World.images w))
           (World.image_seq w) w)
    end).

Definition Destroy (E : Env.t) (image : Image.t) : M (result unit) :=
  attempt E (ImageStore_Destroy image) (fun w =>
    (OK tt,
     set_images
       (filter (fun i => negb (Image.ID i =? Image.ID image))
          (World.images w))
       (World.image_seq w) w)).
End ImageStore.

(** Modelled from the spec: the instance table of the [store] package,
    missing from the sources like the image table; same contract
    (section 6, "the Instance equivalents"). *)
Module InstanceStore.
Definition List (E : Env.t) : M (result (list Instance.t)) :=
  attempt E InstanceStore_List (fun w => (OK (World.instances w), w)).

Definition Get (E : Env.t) (id : Z) : M (result Instance.t) :=
  attempt E (InstanceStore_Get id) (fun w =>
    match find_instance id (World.instances w) with
    | Some i => (OK i, w)
    | None => (Err no_rows, w)
    end).

Definition Create (E : Env.t) (instance : Instance.t) : M (result Instance.t) :=
  attempt E (InstanceStore_Create instance) (fun w =>
    let row := Instance.mk (World.instance_seq w)
                 (Instance.ImageID instance) (Instance.Port instance)
                 (World.now w) (World.now w) in
    (OK row,
     set_instances (World.instances w ++ [row])
       (World.instance_seq w + 1) w)).

Definition Destroy (E : Env.t) (instance : Instance.t) : M (result unit) :=
  attempt E (InstanceStore_Destroy instance) (fun w =>
    (OK tt,
     set_instances
       (filter (fun i => negb (Instance.ID i =? Instance.ID instance))
          (World.instances w))
       (World.instance_seq w) w)).
End InstanceStore.

(** *** Executor *)

(** Modelled from the spec: the [exec] package ([exec.Executor]) is not
    part of the sources.  Its operations (section 4.3) take an identifier
    and return an error, [CreateInstance] also a port; they are
    synchronous, and their effect on the host is what the history
    records. *)
Module Executor.
Definition call (E : Env.t) (c : Call) : M (option string) :=
  fun w =>
    let (r, w') := attempt E c (fun w => (OK tt, w)) w in
    (match r with OK _ => None | Err e => Some e end, w').

Definition CreateBtrfsSubvolume (E : Env.t) (id : Z) : M (option string) :=
  call E (Executor_CreateBtrfsSubvolume id).

Definition FinaliseImage (E : Env.t) (id : Z) : M (option string) :=
  call E (Executor_FinaliseImage id).

Definition DestroyImage (E : Env.t) (id : Z) : M (option string) :=
  call E (Executor_DestroyImage id).

Definition DestroyInstance (E : Env.t) (id : Z) : M (option string) :=
  call E (Executor_DestroyInstance id).

Definition CreateInstance (E : Env.t) (imageID : Z) : M (result Z) :=
  attempt E (Executor_CreateInstance imageID)
    (fun w => (OK (Env.port E (World.history w)), w)).
End Executor.

(** ** routes/images.go
    The handlers, statement by statement; [log.Print] is left out, it
    changes neither the response nor the world. *)

Module Images.
Definition List (E : Env.t) (w : ResponseWriter) (r : Request.t)
  : M ResponseWriter :=
  x <- ImageStore.List E ;;
  match x with
  | Err e =>
      ret (http_Error w (String.append "routes error: " e)
             http.StatusInternalServerError)
  | OK images =>
      match Encode w (ImagesJSON images) with
      | (w, Some _) =>
          ret (http_Error w "json encoding failed"
                 http.StatusInternalServerError)
      | (w, None) => ret w
      end
  end.

Definition Create (E : Env.t) (w : ResponseWriter) (r : Request.t)
  : M ResponseWriter :=
  match Env.decode E (Request.Body r) with
  | Err e =>
      ret (http_Error w (String.append "json decoding failed: " e)
             http.StatusInternalServerError)
  | OK req =>
      let image := NewImage (createImageRequest.BackedUpAt req) in
      x <- ImageStore.Create E image ;;
      match x with
      | Err e =>
          ret (http_Error w (String.append "error creating image: " e)
                 http.StatusInternalServerError)
      | OK image =>
          err <- Executor.CreateBtrfsSubvolume E (Image.ID image) ;;
          match err with
          | Some e =>
              ret (http_Error w
                     (String.append "error creating btrfs subvolume: " e)
                     http.StatusInternalServerError)
          | None =>
              let w := WriteHeader w http.StatusCreated in
              match Encode w (ImageJSON image) with
              | (w, Some _) =>
                  ret (http_Error w "json encoding failed"
                         http.StatusInternalServerError)
              | (w, None) => ret w
              end
          end
      end
  end.

Definition Done (E : Env.t) (w : ResponseWriter) (r : Request.t)
  : M ResponseWriter :=
  match strconv.Atoi (mux_Vars (Request.Vars r) "id") with
  | Err _ => ret (http_Error w "invalid id" http.StatusBadRequest)
  | OK id =>
      x <- ImageStore.Get E id ;;
      match x with
      | Err _ => ret (http_Error w "cannot find image" http.StatusNotFound)
      | OK image =>
          if Image.Ready image then
            ret (http_Error w "image is already finalised"
                   http.StatusBadRequest)
          else
            err <- Executor.FinaliseImage E (Image.ID image) ;;
            match err with
            | Some _ =>
                ret (http_Error w "could not finalise image"
                       http.StatusInternalServerError)
            | None =>
                y <- ImageStore.MarkAsReady E image ;;
                match y with
                | Err _ =>
                    ret (http_Error w "failed to mark image as ready"
                           http.StatusInternalServerError)
                | OK image =>
                    let w := WriteHeader w http.StatusOK in
                    match Encode w (ImageJSON image) with
                    | (w, Some _) =>
                        ret (http_Error w "json encoding failed"
                               http.StatusInternalServerError)
                    | (w, None) => ret w
                    end
                end
            end
      end
  end.
End Images.

(** ** Lifecycle operations outside routes/images.go

    [Images.Destroy] and the [Instances] route set are named by main.go,
    by the tests and by the error table, but their code is not part of the
    sources.  They are modelled here from the specification, on the same
    Store and Executor, and they answer with the values of the error
    table, but for the class Conflict, of which the table has no entry. *)

Inductive Principal : Type :=
| Ordinary
| Upload.

(** Modelled from the spec: the Authorization contract is missing from the
    sources; it "resolves a request to (principalIdentity,
    isUploadPrincipal)" and "fails with Unauthorized when identity cannot
    be established" (section 6). *)
Definition authenticate (E : Env.t) (r : Request.t) : option Principal :=
  match Request.Email r with
  | None => None
  | Some email =>
      if String.eqb email (Env.UPLOAD_USER_EMAIL E) then Some Upload
      else Some Ordinary
  end.

(** The result of a lifecycle operation: a value, or an entry of the
    error table. *)
Inductive outcome (A : Type) : Type :=
| Success (a : A)
| Failure (e : APIError.t).
Arguments Success {A} a.
Arguments Failure {A} e.

Definition references (id : Z) (i : Instance.t) : bool :=
  Instance.ImageID i =? id.

Definition is_not_found (e : APIError.t) : bool :=
  status_of e =? http.StatusNotFound.

(** Modelled from the spec: the answer of the image [Destroy] for an
    image that still has instances.  The operation is missing from the
    sources; sections 4.1 and 7 give the class of its answer, Conflict
    ("state precondition violated - already ready, has dependents").  The
    error table has no entry of that class: its entry for this case,
    [cannotDeleteImageWithInstancesError], announces 422.  This value is
    that entry under the status of the class the specification names. *)
Definition imageHasInstancesConflict : APIError.t :=
  APIError.mk "conflict" "409" "conflict"
    "Image Has Instances" "Cannot delete an image that has instances"
    noSource.

(** Modelled from the spec: the "Store-level Conflict check in section
    4.1" that section 4.3 names, whether a live instance references the
    image.  It is missing from the sources with the rest of the Store.  It
    is a read of the tables and none of the instance store's operations:
    [TestImageDestroy] runs the destroy of an ordinary principal with an
    image store and an executor only.  It changes nothing and the history
    does not record it. *)
Definition has_instances (id : Z) : M bool :=
  fun w => (existsb (references id) (World.instances w), w).

Module ImageLifecycle.
(** Modelled from the spec: the image [Destroy] operation is missing from
    the sources.  Section 4.1: "fails with NotFound if absent; fails with
    Conflict if any live Instance still references id [...] On success:
    Executor deletes the subvolume, then Store deletes the record.  If
    Executor deletion fails, the Store record is retained and the error
    surfaces as InternalError". *)
Definition Destroy (E : Env.t) (id : Z) : M (outcome unit) :=
  x <- ImageStore.Get E id ;;
  match x with
  | Err _ => ret (Failure notFoundError)
  | OK image =>
      referenced <- has_instances id ;;
      if referenced then ret (Failure imageHasInstancesConflict)
      else
        err <- Executor.DestroyImage E id ;;
        match err with
        | Some _ => ret (Failure internalServerError)
        | None =>
            d <- ImageStore.Destroy E image ;;
            match d with
            | Err _ => ret (Failure internalServerError)
            | OK _ => ret (Success tt)
            end
        end
  end.
End ImageLifecycle.

Module InstanceLifecycle.
(** Modelled from the spec: the instance [Create] operation is missing
    from the sources.  Section 4.2: "fails with NotFound if the Image does
    not exist; fails with Unprocessable if the Image's ready is false.  On
    success: Executor allocates an unused port, creates a writable
    snapshot [...], starts the database process bound to that port; Store
    persists the Instance record with the allocated port". *)
Definition Create (E : Env.t) (imageID : Z) : M (outcome Instance.t) :=
  x <- ImageStore.Get E imageID ;;
  match x with
  | Err _ => ret (Failure imageNotFoundError)
  | OK image =>
      if negb (Image.Ready image) then ret (Failure unreadyImageError)
      else
        p <- Executor.CreateInstance E imageID ;;
        match p with
        | Err _ => ret (Failure internalServerError)
        | OK port =>
            y <- InstanceStore.Create E (Instance.mk 0 imageID port 0 0) ;;
            match y with
            | Err _ => ret (Failure internalServerError)
            | OK instance => ret (Success instance)
            end
        end
  end.

(** Modelled from the spec: the instance [Destroy] operation is missing
    from the sources.  Section 4.2: "fails with NotFound if absent.  On
    success: Executor stops the process and deletes the snapshot; Store
    deletes the record.  Executor failure: record retained, InternalError
    surfaced".  Section 7: "Store/Executor failures are never silently
    swallowed; they are [...] surfaced to the caller as InternalError", so
    a read that fails otherwise than by the absence of the row is an
    InternalError, not a NotFound. *)
Definition Destroy (E : Env.t) (id : Z) : M (outcome unit) :=
  x <- InstanceStore.Get E id ;;
  match x with
  | Err e =>
      if String.eqb e no_rows then ret (Failure notFoundError)
      else ret (Failure internalServerError)
  | OK instance =>
      err <- Executor.DestroyInstance E id ;;
      match err with
      | Some _ => ret (Failure internalServerError)
      | None =>
          d <- InstanceStore.Destroy E instance ;;
          match d with
          | Err _ => ret (Failure internalServerError)
          | OK _ => ret (Success tt)
          end
      end
  end.
End InstanceLifecycle.

Module CascadeDestroy.
Fixpoint insert_by_id (i : Instance.t) (l : list Instance.t)
  : list Instance.t :=
  match l with
  | [] => [i]
  | j :: rest =>
      if Instance.ID i <=? Instance.ID j then i :: l
      else j :: insert_by_id i rest
  end.

(** Ascending instance identifier. *)
Fixpoint sort_by_id (l : list Instance.t) : list Instance.t :=
  match l with
  | [] => []
  | i :: rest => insert_by_id i (sort_by_id rest)
  end.

(** Modelled from the spec: section 4.4, "destroy each via Instance
    Lifecycle in turn [...] continuing past any single instance failure
    only if the failure is an already-gone resource (NotFound treated as
    success); any other per-instance failure aborts the cascade and
    surfaces InternalError". *)
Fixpoint destroy_each (E : Env.t) (l : list Instance.t)
  : M (outcome unit) :=
  match l with
  | [] => ret (Success tt)
  | i :: rest =>
      r <- InstanceLifecycle.Destroy E (Instance.ID i) ;;
      match r with
      | Success _ => destroy_each E rest
      | Failure e =>
          if is_not_found e then destroy_each E rest
          else ret (Failure internalServerError)
      end
  end.

(** Modelled from the spec: the destroy of an image as a principal asks
    for it (sections 4.4 and 4.5).  An ordinary principal gets the plain
    image [Destroy]; for the upload principal: "list all Instances, select
    those whose image_id matches the target, destroy each [...] (order:
    ascending instance identifier) [...] Only after all dependent
    instances are confirmed destroyed does it invoke Image Lifecycle
    Destroy". *)
Definition Destroy (E : Env.t) (p : Principal) (id : Z)
  : M (outcome unit) :=
  match p with
  | Ordinary => ImageLifecycle.Destroy E id
  | Upload =>
      l <- InstanceStore.List E ;;
      match l with
      | Err _ => ret (Failure internalServerError)
      | OK instances =>
          r <- destroy_each E (sort_by_id (filter (references id) instances)) ;;
          match r with
          | Failure e => ret (Failure e)
          | Success _ => ImageLifecycle.Destroy E id
          end
      end
  end.
End CascadeDestroy.

(** The taxonomy class of a failed operation. *)
Definition failure_kind {A} (r : outcome A) : option ErrorKind :=
  match r with
  | Success _ => None
  | Failure e => kind_of e
  end.

(** ** Observations *)

(** The events a run appended to the history of [w]. *)
Definition events_since (w w' : World) : list Event.t :=
  skipn (List.length (World.history w)) (World.history w').

Definition executor_calls (evs : list Event.t) : list Call :=
  filter is_executor_call (map Event.call evs).

Definition store_writes (evs : list Event.t) : list Call :=
  filter is_store_write (map Event.call evs).

(** The Store's tables: everything of the world but the history. *)
Definition same_tables (w w' : World) : Prop :=
  World.images w' = World.images w /\
  World.image_seq w' = World.image_seq w /\
  World.instances w' = World.instances w /\
  World.instance_seq w' = World.instance_seq w.

Definition ev (c : Call) (e : option string) : Event.t := Event.mk c e.

Definition status (w : ResponseWriter) : Z := ResponseRecorder.Code w.

(** ** Fixtures in the manner of routes/images_test.go *)

(** The test time stamp, 2016-01-01T12:33:44Z, in seconds. *)
Definition timestamp : Z := 1451651624.

(** A stand-in for the JSON decoder: the body is the backup time in
    decimal. *)
Definition decode_decimal (body : string) : result createImageRequest.t :=
  match strconv.Atoi body with
  | OK n => OK (createImageRequest.mk n)
  | Err e => Err e
  end.

(** An environment in which exactly the calls selected by [p] fail. *)
Definition failing (p : Call -> bool) (msg : string) : Env.t :=
  Env.mk (fun c _ => if p c then Some msg else None)
    (fun h => 5432 + Z.of_nat (List.length h))
    decode_decimal "upload@draupnir".

Definition AllSucceed : Env.t := failing (fun _ => false) "".

Definition fails_FinaliseImage (c : Call) : bool :=
  match c with Executor_FinaliseImage _ => true | _ => false end.

Definition fails_MarkAsReady (c : Call) : bool :=
  match c with ImageStore_MarkAsReady _ => true | _ => false end.

Definition fails_CreateBtrfsSubvolume (c : Call) : bool :=
  match c with Executor_CreateBtrfsSubvolume _ => true | _ => false end.


Definition fails_Get_instance (id : Z) (c : Call) : bool :=
  match c with InstanceStore_Get j => j =? id | _ => false end.

Definition image1 : Image.t := Image.mk 1 timestamp false timestamp timestamp.

Definition image1_ready : Image.t :=
  Image.mk 1 timestamp true timestamp timestamp.

Definition request (id body : string) : Request.t :=
  Request.mk [("id", id)] body None.

(** One image, not finalised, no instance. *)
Definition world_unready : World := World.mk [image1] 2 [] 1 timestamp [].

(** One finalised image, no instance. *)
Definition world_ready : World :=
  World.mk [image1_ready] 2 [] 1 timestamp [].

(** The tables of [TestImageDestroyFromUploadUser]: instances 1 and 3 of
    image 1, instance 2 of image 2. *)
Definition world_instances : World :=
  World.mk [image1_ready; Image.mk 2 timestamp true timestamp timestamp] 3
    [Instance.mk 1 1 5432 timestamp timestamp;
     Instance.mk 2 2 5433 timestamp timestamp;
     Instance.mk 3 1 5434 timestamp timestamp] 4 timestamp [].

(** The world after a delete of [instance] the Store accepted. *)
Definition instance_deleted (instance : Instance.t) (w : World) : World :=
  record (InstanceStore_Destroy instance) None
    (set_instances
       (filter (fun i => negb (Instance.ID i =? Instance.ID instance))
          (World.instances w))
       (World.instance_seq w) w).

(** The world after the instance [Destroy] went through for [instance]. *)
Definition instance_destroyed (instance : Instance.t) (w : World) : World :=
  instance_deleted instance
    (record (Executor_DestroyInstance (Instance.ID instance)) None
       (record (InstanceStore_Get (Instance.ID instance)) None w)).

(** No call ever fails. *)
Definition faultless (E : Env.t) : Prop :=
  forall c h, Env.fault E c h = None.

(** The identifier of [j] is none of those of [l]. *)
Definition not_among (l : list Instance.t) (j : Instance.t) : bool :=
  negb (existsb (fun i => Instance.ID i =? Instance.ID j) l).

Definition unique_instances (w : World) : Prop :=
  NoDup (map Instance.ID (World.instances w)).

Definition DestroyInstance_calls (l : list Instance.t) : list Call :=
  map (fun i => Executor_DestroyInstance (Instance.ID i)) l.

Definition ascending (l : list Instance.t) : Prop :=
  Sorted (fun a b => Instance.ID a < Instance.ID b) l.








(** The world after a [MarkAsReady] the Store accepted. *)
Definition marked (image : Image.t) (w : World) : World :=
  record (ImageStore_MarkAsReady image) None
    (set_images
       (map (fun i => if Image.ID i =? Image.ID image
                      then mark_ready (World.now w) i else i)
          (World.images w))
       (World.image_seq w) w).

(** The world after a delete of [image] the Store accepted. *)
Definition image_deleted (image : Image.t) (w : World) : World :=
  record (ImageStore_Destroy image) None
    (set_images
       (filter (fun i => negb (Image.ID i =? Image.ID image))
          (World.images w))
       (World.image_seq w) w).


(** ** The system as a transition system *)

(** The operations of the system: the three handlers of routes/images.go
    and the lifecycle operations modelled from the specification. *)
Inductive Op : Type :=
| Images_List (rw : ResponseWriter) (r : Request.t)
| Images_Create (rw : ResponseWriter) (r : Request.t)
| Images_Done (rw : ResponseWriter) (r : Request.t)
| Image_Destroy (p : Principal) (id : Z)
| Instance_Create (imageID : Z)
| Instance_Destroy (id : Z).

Definition step (E : Env.t) (op : Op) (w : World) : World :=
  match op with
  | Images_List rw r => snd (Images.List E rw r w)
  | Images_Create rw r => snd (Images.Create E rw r w)
  | Images_Done rw r => snd (Images.Done E rw r w)
  | Image_Destroy p id => snd (CascadeDestroy.Destroy E p id w)
  | Instance_Create imageID => snd (InstanceLifecycle.Create E imageID w)
  | Instance_Destroy id => snd (InstanceLifecycle.Destroy E id w)
  end.

Definition run (E : Env.t) (ops : list Op) (w : World) : World :=
  fold_left (fun w op => step E op w) ops w.

(** The image table is keyed by identifier, and every identifier in use
    was handed out by the sequence. *)
Definition ids_bounded (w : World) : Prop :=
  forall i, In i (World.images w) -> Image.ID i < World.image_seq w.

Definition wf_images (w : World) : Prop :=
  NoDup (map Image.ID (World.images w)) /\ ids_bounded w.

(** From [w] to [w']: the sequence does not go back, the table stays well
    formed, and an image of [w'] under an identifier that [w] had handed
    out is an image of [w], ready if it was. *)
Definition ready_kept (w w' : World) : Prop :=
  World.image_seq w <= World.image_seq w' /\
  (wf_images w -> wf_images w') /\
  forall i', In i' (World.images w') ->
             Image.ID i' < World.image_seq w ->
             exists i, In i (World.images w) /\ Image.ID i = Image.ID i' /\
                       (Image.Ready i = true -> Image.Ready i' = true).

Definition preserves {A} (m : M A) : Prop :=
  forall w, ready_kept w (snd (m w)).

(** What [Images.Done] answers and leaves for an image the Store returned
    as not ready: the Executor's answer decides, then the Store's. *)
Definition finalise_unready (E : Env.t) (rw : ResponseWriter) (w : World)
  (id : Z) (image : Image.t) : ResponseWriter * World :=
  let w1 := record (ImageStore_Get id) None w in
  let ferr := Env.fault E (Executor_FinaliseImage id) (World.history w1) in
  let w2 := record (Executor_FinaliseImage id) ferr w1 in
  let merr := Env.fault E (ImageStore_MarkAsReady image) (World.history w2) in
  match ferr with
  | Some _ =>
      (http_Error rw "could not finalise image"
         http.StatusInternalServerError, w2)
  | None =>
      match merr with
      | Some _ =>
          (http_Error rw "failed to mark image as ready"
             http.StatusInternalServerError,
           record (ImageStore_MarkAsReady image) merr w2)
      | None =>
          (match Encode (WriteHeader rw http.StatusOK)
                   (ImageJSON (mark_ready (World.now w) image)) with
           | (rw', Some _) =>
               http_Error rw' "json encoding failed"
                 http.StatusInternalServerError
           | (rw', None) => rw'
           end,
           marked image w2)
      end
  end.

(** The identifier a request addresses. *)
Definition request_id (r : Request.t) : result Z :=
  strconv.Atoi (mux_Vars (Request.Vars r) "id").

(** [l] is [l'] cut after some of its elements. *)
Definition is_prefix {A} (l l' : list A) : Prop :=
  exists n, l = firstn n l'.

(** ** routes/errors.go, the remaining entries *)

Definition missingApiVersion : APIError.t :=
  APIError.mk "missing_api_version_header" "400" "missing_api_version_header"
    "Missing API Version Header"
    "No API version specified in Draupnir-Version header" noSource.

(** [version.Version] is a variable of a package outside the sources: it
    is the first argument here. *)
Definition invalidApiVersion (serverVersion v : string) : APIError.t :=
  APIError.mk "invalid_api_version" "400" "invalid_api_version"
    "Invalid API Version"
    (String.append "Specified API version ("
       (String.append v
          (String.append ") does not match server version ("
             (String.append serverVersion ")"))))
    noSource.

Definition oauthError : APIError.t :=
  APIError.mk "bad_request" "400" "bad_request"
    "OAuth Error" "There was some oauth error" noSource.

(** The entries of the file that are values. *)
Definition error_table : list APIError.t :=
  [internalServerError; missingApiVersion; notFoundError; unauthorizedError;
   imageNotFoundError; badImageIDError; unreadyImageError;
   cannotDeleteImageWithInstancesError; invalidJSONError; oauthError].

(** ** main.go: the routes *)

Inductive Handler : Type :=
| HealthCheck
| Images_List_handler
| Images_Create_handler
| Images_Done_handler
| Images_Get_handler
| Instances_List_handler
| Instances_Create_handler
| Instances_Get_handler.

(** A path template of gorilla/mux, segment by segment: [Lit "images"] is
    the text [images], [Var "id"] is [{id}], which matches one or more
    characters other than [/]. *)
Inductive Seg : Type :=
| Lit (s : string)
| Var (name : string).

Module Route.
Record t : Type := mk {
  template : list Seg;
  methods : list string;        (* [] when [Methods] was not called *)
  handler : Handler
}.
End Route.

(** The routes in the order main.go registers them. *)
Definition routes : list Route.t :=
  [Route.mk [Lit "health_check"] [] HealthCheck;
   Route.mk [Lit "images"] ["GET"] Images_List_handler;
   Route.mk [Lit "images"] ["POST"] Images_Create_handler;
   Route.mk [Lit "images"; Var "id"; Lit "done"] ["POST"] Images_Done_handler;
   Route.mk [Lit "images"; Var "id"] ["GET"] Images_Get_handler;
   Route.mk [Lit "instances"] ["GET"] Instances_List_handler;
   Route.mk [Lit "instances"] ["POST"] Instances_Create_handler;
   Route.mk [Lit "instances"; Var "id"] ["GET"] Instances_Get_handler].

Definition slash : ascii := "/"%char.

(** The text between the slashes of [s]. *)
Fixpoint split_slash (s : string) : list string :=
  match s with
  | EmptyString => [EmptyString]
  | String c s' =>
      if Ascii.eqb c slash then EmptyString :: split_slash s'
      else match split_slash s' with
           | x :: xs => String c x :: xs
           | [] => [String c EmptyString]
           end
  end.

(** The segments of a request path, which starts with a slash. *)
Definition segments (path : string) : option (list string) :=
  match path with
  | String c rest => if Ascii.eqb c slash then Some (split_slash rest) else None
  | EmptyString => None
  end.

(** mux answers a path that is not clean (an empty, [.] or [..] segment
    inside it) with a redirect, before any route is tried. *)
Definition clean_segment (s : string) : bool :=
  negb (String.eqb s "" || String.eqb s "." || String.eqb s "..").

Fixpoint match_template (tpl : list Seg) (segs : list string)
  : option (list (string * string)) :=
  match tpl, segs with
  | [], [] => Some []
  | Lit s :: tpl', x :: segs' =>
      if String.eqb s x then match_template tpl' segs' else None
  | Var name :: tpl', x :: segs' =>
      if clean_segment x then
        match match_template tpl' segs' with
        | Some vars => Some ((name, x) :: vars)
        | None => None
        end
      else None
  | _, _ => None
  end.

Definition method_allowed (methods : list string) (method : string) : bool :=
  match methods with
  | [] => true
  | _ => existsb (String.eqb method) methods
  end.

Definition route_matches (method : string) (segs : list string)
  (rt : Route.t) : option (list (string * string)) :=
  if method_allowed (Route.methods rt) method
  then match_template (Route.template rt) segs
  else None.

(** The first route that matches, with the variables of its template;
    [None] when no handler of the table is run. *)
Fixpoint first_match (method : string) (segs : list string)
  (l : list Route.t) : option (Handler * list (string * string)) :=
  match l with
  | [] => None
  | rt :: rest =>
      match route_matches method segs rt with
      | Some vars => Some (Route.handler rt, vars)
      | None => first_match method segs rest
      end
  end.

Definition dispatch (method path : string)
  : option (Handler * list (string * string)) :=
  match segments path with
  | Some segs => first_match method segs routes
  | None => None
  end.

(** The request as a handler of routes/images.go receives it, and the
    handler run on it; [None] for a handler outside that file. *)
Definition serve (E : Env.t) (method path body : string)
  (rw : ResponseWriter) : option (M ResponseWriter) :=
  match dispatch method path with
  | Some (Images_List_handler, vars) =>
      Some (Images.List E rw (Request.mk vars body None))
  | Some (Images_Create_handler, vars) =>
      Some (Images.Create E rw (Request.mk vars body None))
  | Some (Images_Done_handler, vars) =>
      Some (Images.Done E rw (Request.mk vars body None))
  | _ => None
  end.

Fixpoint has_slash (s : string) : bool :=
  match s with
  | EmptyString => false
  | String c s' => Ascii.eqb c slash || has_slash s'
  end.

(** The path of the done route for the identifier text [id]. *)
Definition done_path (id : string) : string :=
  String.append "/images/" (String.append id "/done").

(** ** The command line client (package main)

    The actions of the commands, over an environment that answers for
    what lies outside the file: the configuration file ([config.Load],
    [config.Store]), the API client, the browser, the clock format, the
    file system.  An action prints, loads and stores the configuration,
    calls the API, and finishes by returning an error or [nil], or by a
    fatal log. *)

Module Token.
(** The fields of the token the file reads. *)
Record t : Type := mk { AccessToken : string; RefreshToken : string }.
End Token.

Module Config.
(** [config.Config], as the file uses it. *)
Record t : Type := mk { Domain : string; Token : Token.t; Database : string }.
End Config.

(** [fmt]'s [%d]. *)
Definition digit_char (d : Z) : ascii := ascii_of_nat (48 + Z.to_nat d).

Fixpoint fmt_digits (fuel : nat) (n : Z) (acc : string) : string :=
  match fuel with
  | O => acc
  | S fuel' =>
      let acc' := String (digit_char (n mod 10)) acc in
      if n <? 10 then acc' else fmt_digits fuel' (n / 10) acc'
  end.

Definition fmt_unsigned (n : Z) : string :=
  fmt_digits (S (Z.to_nat (Z.log2 n))) n EmptyString.

Definition fmt_d (n : Z) : string :=
  if n <? 0 then String "-"%char (fmt_unsigned (- n)) else fmt_unsigned n.

Fixpoint spaces (n : nat) : string :=
  match n with
  | O => EmptyString
  | S n' => String " "%char (spaces n')
  end.

(** A width in a format: padded with spaces on the left. *)
Definition pad_left (width : nat) (s : string) : string :=
  String.append (spaces (width - String.length s)) s.

(** [fmt]'s [%t]. *)
Definition fmt_t (b : bool) : string := if b then "true" else "false".

Module Client.
(** The calls of the API client the file makes. *)
Inductive Call : Type :=
| ListInstances
| GetLatestImage
| GetImage (id : string)
| CreateInstance (image : Image.t)
| GetInstance (id : string)
| DestroyInstance (instance : Instance.t)
| ListImages
| CreateImage (backedUpAt : Z) (anon : string)
| FinaliseImage (imageID : Z)
| DestroyImage (image : Image.t)
| CreateAccessToken (state : string).

(** What the server answers to each call. *)
Record t : Type := mk {
  listInstances : result (list Instance.t);
  getLatestImage : result Image.t;
  getImage : string -> result Image.t;
  createInstance : Image.t -> result Instance.t;
  getInstance : string -> result Instance.t;
  destroyInstance : Instance.t -> option string;
  listImages : result (list Image.t);
  createImage : Z -> string -> result Image.t;
  finaliseImage : Z -> result Image.t;
  destroyImage : Image.t -> option string;
  createAccessToken : string -> result Token.t
}.
End Client.

Module Host.
(** What lies outside the file. *)
Record t : Type := mk {
  Load : result Config.t;                   (* config.Load() *)
  Store : Config.t -> option string;        (* config.Store(cfg) *)
  client : Client.t;
  open : string -> option string;           (* exec.Command("open", url).Run() *)
  Int31 : Z;                                (* rand.Int31() *)
  ParseTime : string -> result Z;           (* time.Parse(time.RFC3339, s) *)
  ReadFile : string -> result string;       (* ioutil.ReadFile(path) *)
  FormatTime : Z -> string;                 (* t.Format(time.RFC3339) *)
  ToLower : string -> string;               (* strings.ToLower *)
  Getenv : string -> string                 (* os.Getenv *)
}.
End Host.

Inductive Effect : Type :=
| Stdout (s : string)
| Stderr (s : string)
| LoadConfig
| StoreConfig (cfg : Config.t)
| Remote (c : Client.Call)
| OpenURL (url : string)
| ReadsFile (path : string)
| ReadsEnv (name : string).

(** How an action ends: it returns its error ([None] for [nil]), or the
    logger's [Fatal] ends the process. *)
Inductive Finish : Type :=
| Return (err : option string)
| Fatal (msg : string).

(** An action under way: the effects so far, and either the end or a
    value to go on with. *)
Definition P (A : Type) : Type := list Effect -> (Finish + A) * list Effect.

Definition retP {A} (a : A) : P A := fun l => (inr a, l).

Definition bindP {A B} (m : P A) (k : A -> P B) : P B :=
  fun l =>
    match m l with
    | (inl f, l') => (inl f, l')
    | (inr a, l') => k a l'
    end.

Notation "x <~ m ;; k" := (bindP m (fun x => k))
  (at level 61, m at next level, right associativity).
Notation "m ;;; k" := (bindP m (fun _ => k))
  (at level 61, right associativity).

Definition finish {A} (f : Finish) : P A := fun l => (inl f, l).

Definition effect (e : Effect) : P unit := fun l => (inr tt, l ++ [e]).

(** The end of a whole action, with everything it did. *)
Definition run_action (a : P Finish) : Finish * list Effect :=
  match a [] with
  | (inl f, l) => (f, l)
  | (inr f, l) => (f, l)
  end.

Definition Printf (s : string) : P unit := effect (Stdout s).

Definition Println (s : string) : P unit :=
  effect (Stdout (String.append s newline)).

(** The builtin [println], which writes to the standard error. *)
Definition println (s : string) : P unit :=
  effect (Stderr (String.append s newline)).

Definition loadConfig (H : Host.t) : P Config.t :=
  effect LoadConfig ;;;
  match Host.Load H with
  | OK cfg => retP cfg
  | Err _ => finish (Fatal "Could not load configuration")
  end.

Definition storeConfig (H : Host.t) (cfg : Config.t) : P unit :=
  effect (StoreConfig cfg) ;;;
  match Host.Store H cfg with
  | None => retP tt
  | Some _ => finish (Fatal "Could not store configuration")
  end.

(** [NewClient] reads the configuration for the domain and the token. *)
Definition NewClient (H : Host.t) : P Client.t :=
  _ <~ loadConfig H ;; retP (Host.client H).

Definition remote {A} (c : Client.Call) (answer : A) : P A :=
  effect (Remote c) ;;; retP answer.

(** [errors.Wrap(err, msg)]. *)
Definition Wrap (err msg : string) : string :=
  String.append msg (String.append ": " err).

(** [c.Args().First()] and [c.Args().Get(n)]: the empty string when there
    is no such argument. *)
Definition First (args : list string) : string := nth 0 args EmptyString.
Definition Get (n : nat) (args : list string) : string :=
  nth n args EmptyString.

Definition ImageToString (H : Host.t) (i : Image.t) : string :=
  String.append (pad_left 2 (fmt_d (Image.ID i)))
    (String.append " [ "
       (String.append (Host.FormatTime H (Image.BackedUpAt i))
          (String.append " - READY: "
             (String.append (pad_left 5 (fmt_t (Image.Ready i))) " ]")))).

Definition InstanceToString (H : Host.t) (i : Instance.t) : string :=
  String.append (pad_left 2 (fmt_d (Instance.ID i)))
    (String.append " [ PORT: "
       (String.append (fmt_d (Instance.Port i))
          (String.append " - "
             (String.append (Host.FormatTime H (Instance.CreatedAt i))
                " ]")))).

(** The database precedence is config, environment variable,
    [postgres]. *)
Definition export_database (H : Host.t) (config : Config.t) : P string :=
  let database := Config.Database config in
  if String.eqb database "" then
    effect (ReadsEnv "PGDATABASE") ;;;
    let database := Host.Getenv H "PGDATABASE" in
    if String.eqb database "" then retP "postgres" else retP database
  else retP database.

Definition showExportCommand (H : Host.t) (config : Config.t)
  (instance : Instance.t) : P unit :=
  database <~ export_database H config ;;
  Printf
    (String.append "export PGHOST="
       (String.append (Config.Domain config)
          (String.append " PGPORT="
             (String.append (fmt_d (Instance.Port instance))
                (String.append " PGUSER=postgres PGPASSWORD='' PGDATABASE="
                   (String.append database newline)))))).

(** The actions of the commands, named after them. *)
Module Command.
(** What [config show] prints of the access token. *)
Definition shown_token (accessToken : string) : string :=
  if (String.length accessToken <? 10)%nat then accessToken
  else String.append (substring 0 10 accessToken) "****".

Definition config_show (H : Host.t) : P Finish :=
  cfg <~ loadConfig H ;;
  let domain := Config.Domain cfg in
  let accessToken := Token.AccessToken (Config.Token cfg) in
  let database := Config.Database cfg in
  Printf (String.append "Domain: " (String.append domain newline)) ;;;
  Printf (String.append "Access Token: "
            (String.append (shown_token accessToken) newline)) ;;;
  Printf (String.append "Database: " (String.append database newline)) ;;;
  retP (Return None).

Definition config_set_usage : string :=
  "draupnir config set [key] [value]

[key] can take the following values:
    domain: The domain of the draupnir server.
    database: The default database to connect to. If not set, defaults to the PGDATABASE environment variable.".

Definition config_set (H : Host.t) (args : list string) : P Finish :=
  if negb (List.length args =? 2)%nat then
    println config_set_usage ;;;
    retP (Return (Some "Invalid arguments"))
  else
    let key := First args in
    let val := Get 1 args in
    cfg <~ loadConfig H ;;
    (if String.eqb (Host.ToLower H key) "domain" then
       storeConfig H
         (Config.mk val (Config.Token cfg) (Config.Database cfg))
     else if String.eqb (Host.ToLower H key) "database" then
       storeConfig H (Config.mk (Config.Domain cfg) (Config.Token cfg) val)
     else
       Printf (String.append "Invalid key " (String.append key newline))) ;;;
    retP (Return None).

Definition authenticate_url (cfg : Config.t) (state : string) : string :=
  String.append "https://"
    (String.append (Config.Domain cfg)
       (String.append "/authenticate?state=" state)).

Definition authenticate (H : Host.t) : P Finish :=
  cfg <~ loadConfig H ;;
  client <~ NewClient H ;;
  if negb (String.eqb (Token.RefreshToken (Config.Token cfg)) "") then
    Printf (String.append "You're already authenticated." newline) ;;;
    retP (Return None)
  else
    let state := fmt_d (Host.Int31 H) in
    let url := authenticate_url cfg state in
    effect (OpenURL url) ;;;
    (match Host.open H url with
     | Some _ =>
         Printf (String.append "Visit this link in your browser: "
                   (String.append url newline))
     | None => retP tt
     end) ;;;
    t <~ remote (Client.CreateAccessToken state)
           (Client.createAccessToken client state) ;;
    match t with
    | Err e =>
        Printf (String.append "error creating access token: "
                  (String.append e newline)) ;;;
        retP (Return (Some e))
    | OK token =>
        storeConfig H (Config.mk (Config.Domain cfg) token
                         (Config.Database cfg)) ;;;
        Println "Successfully authenticated." ;;;
        retP (Return None)
    end.

Definition print_error (e : string) : P unit :=
  Printf (String.append "error: " (String.append e newline)).

Fixpoint print_each {A} (show : A -> string) (l : list A) : P unit :=
  match l with
  | [] => retP tt
  | x :: rest => Println (show x) ;;; print_each show rest
  end.

Definition instances_list (H : Host.t) : P Finish :=
  client <~ NewClient H ;;
  r <~ remote Client.ListInstances (Client.listInstances client) ;;
  match r with
  | Err e => print_error e ;;; retP (Return (Some e))
  | OK instances =>
      print_each (InstanceToString H) instances ;;; retP (Return None)
  end.

Definition instances_create (H : Host.t) (args : list string) : P Finish :=
  client <~ NewClient H ;;
  r <~ (if (List.length args =? 0)%nat
        then remote Client.GetLatestImage (Client.getLatestImage client)
        else remote (Client.GetImage (First args))
               (Client.getImage client (First args))) ;;
  match r with
  | Err e => print_error e ;;; retP (Return (Some e))
  | OK image =>
      i <~ remote (Client.CreateInstance image)
             (Client.createInstance client image) ;;
      match i with
      | Err e => print_error e ;;; retP (Return (Some e))
      | OK instance =>
          Printf (String.append "Created with image ID: "
                    (String.append (fmt_d (Image.ID image)) newline)) ;;;
          Println (InstanceToString H instance) ;;;
          retP (Return None)
      end
  end.

Definition instances_destroy (H : Host.t) (args : list string) : P Finish :=
  let id := First args in
  if String.eqb id "" then
    Println "error: must supply an instance id" ;;; retP (Return None)
  else
    client <~ NewClient H ;;
    r <~ remote (Client.GetInstance id) (Client.getInstance client id) ;;
    match r with
    | Err e => print_error e ;;; retP (Return (Some e))
    | OK instance =>
        d <~ remote (Client.DestroyInstance instance)
               (Client.destroyInstance client instance) ;;
        match d with
        | Some e => print_error e ;;; retP (Return (Some e))
        | None =>
            Printf (String.append "Destroyed "
                      (String.append (fmt_d (Instance.ID instance))
                         newline)) ;;;
            retP (Return None)
        end
    end.

Definition images_list (H : Host.t) : P Finish :=
  client <~ NewClient H ;;
  r <~ remote Client.ListImages (Client.listImages client) ;;
  match r with
  | Err e => print_error e ;;; retP (Return (Some e))
  | OK images => print_each (ImageToString H) images ;;; retP (Return None)
  end.

Definition images_create_usage : string :=
  "draupnir images create [backedUpAt] [anon.sql]

[backedUpAt] an iso8601 timestamp defining when this backup was completed
[anonyimse.sql] path to an anonymisation script that will be run on image finalisation".

Definition images_create (H : Host.t) (args : list string) : P Finish :=
  client <~ NewClient H ;;
  if negb (List.length args =? 2)%nat then
    println images_create_usage ;;;
    retP (Return (Some "Invalid arguments"))
  else
    match Host.ParseTime H (Get 0 args) with
    | Err e =>
        println images_create_usage ;;;
        retP (Return (Some (Wrap e "Invalid backedUpAt timestamp")))
    | OK backedUpAt =>
        let anonPath := Get 1 args in
        effect (ReadsFile anonPath) ;;;
        match Host.ReadFile H anonPath with
        | Err e =>
            println images_create_usage ;;;
            retP (Return (Some (Wrap e "Invalid anon script")))
        | OK anon =>
            r <~ remote (Client.CreateImage backedUpAt anon)
                   (Client.createImage client backedUpAt anon) ;;
            match r with
            | Err e => print_error e ;;; retP (Return (Some e))
            | OK image =>
                Println (ImageToString H image) ;;; retP (Return None)
            end
        end
    end.

Definition images_finalise_usage : string :=
  "draupnir images finalise [id]

[id] the image ID to finalise".

Definition images_finalise (H : Host.t) (args : list string) : P Finish :=
  client <~ NewClient H ;;
  if negb (List.length args =? 1)%nat then
    println images_finalise_usage ;;;
    retP (Return (Some "Missing image ID argument"))
  else
    match strconv.Atoi (First args) with
    | Err e =>
        println images_finalise_usage ;;;
        retP (Return (Some (Wrap e "Invalid image ID")))
    | OK imageID =>
        r <~ remote (Client.FinaliseImage imageID)
               (Client.finaliseImage client imageID) ;;
        match r with
        | Err e => retP (Return (Some (Wrap e "Could not finalise image")))
        | OK image =>
            Println (ImageToString H image) ;;; retP (Return None)
        end
    end.

Definition images_destroy (H : Host.t) (args : list string) : P Finish :=
  let id := First args in
  if String.eqb id "" then
    Println "error: must supply an image id" ;;; retP (Return None)
  else
    client <~ NewClient H ;;
    r <~ remote (Client.GetImage id) (Client.getImage client id) ;;
    match r with
    | Err e => print_error e ;;; retP (Return (Some e))
    | OK image =>
        d <~ remote (Client.DestroyImage image)
               (Client.destroyImage client image) ;;
        match d with
        | Some e => print_error e ;;; retP (Return (Some e))
        | None =>
            Printf (String.append "Destroyed "
                      (String.append (fmt_d (Image.ID image)) newline)) ;;;
            retP (Return None)
        end
    end.

Definition env (H : Host.t) (args : list string) : P Finish :=
  let id := First args in
  if String.eqb id "" then
    Println "error: must supply an instance id" ;;; retP (Return None)
  else
    client <~ NewClient H ;;
    r <~ remote (Client.GetInstance id) (Client.getInstance client id) ;;
    match r with
    | Err e => print_error e ;;; retP (Return (Some e))
    | OK instance =>
        cfg <~ loadConfig H ;;
        showExportCommand H cfg instance ;;;
        retP (Return None)
    end.

Definition new (H : Host.t) : P Finish :=
  client <~ NewClient H ;;
  r <~ remote Client.GetLatestImage (Client.getLatestImage client) ;;
  match r with
  | Err e => print_error e ;;; retP (Return (Some e))
  | OK image =>
      i <~ remote (Client.CreateInstance image)
             (Client.createInstance client image) ;;
      match i with
      | Err e => print_error e ;;; retP (Return (Some e))
      | OK instance =>
          cfg <~ loadConfig H ;;
          showExportCommand H cfg instance ;;;
          retP (Return None)
      end
  end.

End Command.

(** The calls to the API among the effects, the configurations stored,
    and what went to the standard output. *)
Definition remote_calls (l : list Effect) : list Client.Call :=
  flat_map (fun e => match e with Remote c => [c] | _ => [] end) l.

Definition stored_configs (l : list Effect) : list Config.t :=
  flat_map (fun e => match e with StoreConfig c => [c] | _ => [] end) l.

Definition printed (l : list Effect) : list string :=
  flat_map (fun e => match e with Stdout s => [s] | _ => [] end) l.

(** ** A host for the examples of the client *)

Definition no_server : Client.t :=
  Client.mk (Err "connection refused") (Err "connection refused")
    (fun _ => Err "connection refused") (fun _ => Err "connection refused")
    (fun _ => Err "connection refused") (fun _ => Some "connection refused")
    (Err "connection refused") (fun _ _ => Err "connection refused")
    (fun _ => Err "connection refused") (fun _ => Some "connection refused")
    (fun _ => Err "connection refused").

(** A server with image 1, ready, and instance 4 cloned from it. *)
Definition test_server : Client.t :=
  Client.mk (OK [Instance.mk 4 1 5435 timestamp timestamp]) (OK image1_ready)
    (fun id => if String.eqb id "1" then OK image1_ready else Err "not found")
    (fun image => OK (Instance.mk 5 (Image.ID image) 5436 timestamp timestamp))
    (fun id => if String.eqb id "4"
               then OK (Instance.mk 4 1 5435 timestamp timestamp)
               else Err "not found")
    (fun _ => None) (OK [image1_ready])
    (fun backedUpAt _ => OK (Image.mk 2 backedUpAt false timestamp timestamp))
    (fun id => if id =? 1 then OK image1_ready else Err "not found")
    (fun _ => None)
    (fun state => OK (Token.mk (String.append "access-" state) "refresh"))
  .

Definition test_config (refresh : string) : Config.t :=
  Config.mk "draupnir.example" (Token.mk "0123456789abcdef" refresh) "".

(** A host whose configuration holds the refresh token [refresh], which
    reaches [client], and which has no browser. *)
Definition test_host (refresh : string) (client : Client.t) : Host.t :=
  Host.mk (OK (test_config refresh)) (fun _ => None) client
    (fun _ => Some "exec: open: executable file not found") 1804289383
    (fun s => if String.eqb s "2016-01-01T12:33:44Z" then OK timestamp
              else Err "cannot parse")
    (fun path => if String.eqb path "anon.sql" then OK "SELECT 1;"
                 else Err "no such file or directory")
    (fun _ => "2016-01-01T12:33:44Z") (fun s => s) (fun _ => "").

(** An image last updated in the first second of the year 10000. *)
Definition image_of_year_10000 : Image.t :=
  Image.mk 7 timestamp true timestamp 253402300800.

(** * Properties *)

(** ** The tests of routes/images_test.go, replayed *)

(** TestImageDone. *)
Example TestImageDone :
  let res := Images.Done AllSucceed NewRecorder (request "1" "")
               world_unready in
  status (fst res) = http.StatusOK /\
  ResponseRecorder.Body (fst res) = [ImageJSON image1_ready] /\
  World.images (snd res) = [image1_ready].
Proof. repeat split. Qed.

(** TestImageCreateReturnsErrorWhenSubvolumeCreationFails. *)
Example TestImageCreateReturnsErrorWhenSubvolumeCreationFails :
  let res := Images.Create
               (failing fails_CreateBtrfsSubvolume "some btrfs error")
               NewRecorder (request "" "1451651624") empty_world in
  status (fst res) = http.StatusInternalServerError /\
  map Event.err (World.history (snd res)) = [None; Some "some btrfs error"].
Proof. repeat split. Qed.

(** TestImageDoneWithNonNumericID sends "bad_id"; the handler of
    routes/images.go answers it with 400. *)
Example Done_bad_id :
  Images.Done AllSucceed NewRecorder (request "bad_id" "") world_unready =
  (http_Error NewRecorder "invalid id" http.StatusBadRequest, world_unready).
Proof. reflexivity. Qed.

(** TestImageDestroyFromUploadUser: the Store deletes instances 1 and 3,
    in that order, then the image. *)
Example TestImageDestroyFromUploadUser :
  let res := CascadeDestroy.Destroy AllSucceed Upload 1 world_instances in
  fst res = Success tt /\
  store_writes (events_since world_instances (snd res)) =
    [InstanceStore_Destroy (Instance.mk 1 1 5432 timestamp timestamp);
     InstanceStore_Destroy (Instance.mk 3 1 5434 timestamp timestamp);
     ImageStore_Destroy image1_ready].
Proof. repeat split. Qed.

(** An instance the Store no longer returns does not stop the loop: the
    next dependent instance is still destroyed. *)
Example NotFound_is_skipped :
  let res := CascadeDestroy.destroy_each
               (failing (fails_Get_instance 1) "sql: no rows in result set")
               [Instance.mk 1 1 5432 timestamp timestamp;
                Instance.mk 3 1 5434 timestamp timestamp]
               world_instances in
  fst res = Success tt /\
  executor_calls (events_since world_instances (snd res)) =
    [Executor_DestroyInstance 3].
Proof. repeat split. Qed.

(** A read of the Store that fails for another reason stops the loop: the
    next dependent instance is left alone. *)
Example Read_fault_is_not_skipped :
  let res := CascadeDestroy.destroy_each
               (failing (fails_Get_instance 1) "connection refused")
               [Instance.mk 1 1 5432 timestamp timestamp;
                Instance.mk 3 1 5434 timestamp timestamp]
               world_instances in
  fst res = Failure internalServerError /\
  executor_calls (events_since world_instances (snd res)) = [] /\
  World.instances (snd res) = World.instances world_instances.
Proof. repeat split. Qed.

(** TestImageDestroy: an ordinary principal and an image without
    instances; the calls are those of the image store and the executor. *)
Example TestImageDestroy :
  let res := CascadeDestroy.Destroy AllSucceed Ordinary 1 world_ready in
  fst res = Success tt /\
  map Event.call (events_since world_ready (snd res)) =
    [ImageStore_Get 1; Executor_DestroyImage 1;
     ImageStore_Destroy image1_ready].
Proof. repeat split. Qed.

(** ** Equations of the collaborators' calls *)

Lemma events_since_app (w w' : World) (evs : list Event.t) :
  World.history w' = World.history w ++ evs -> events_since w w' = evs.
Proof.
  intros H. unfold events_since. rewrite H.
  rewrite skipn_app, skipn_all, Nat.sub_diag. reflexivity.
Qed.

Lemma same_tables_refl (w : World) : same_tables w w.
Proof. repeat split. Qed.

Lemma same_tables_record (c : Call) (e : option string) (w : World) :
  same_tables w (record c e w).
Proof. repeat split. Qed.

Lemma attempt_fault {A} E c (run : World -> result A * World) w e :
  Env.fault E c (World.history w) = Some e ->
  attempt E c run w = (Err e, record c (Some e) w).
Proof. intros H. unfold attempt. rewrite H. reflexivity. Qed.

Lemma attempt_run {A} E c (run : World -> result A * World) w :
  Env.fault E c (World.history w) = None ->
  attempt E c run w =
  (fst (run w),
   record c (match fst (run w) with OK _ => None | Err e => Some e end)
     (snd (run w))).
Proof.
  intros H. unfold attempt. rewrite H. destruct (run w). reflexivity.
Qed.

Lemma find_image_ID id l i : find_image id l = Some i -> Image.ID i = id.
Proof.
  unfold find_image. intros H. apply find_some in H. destruct H as [_ H].
  apply Z.eqb_eq in H. exact H.
Qed.

Lemma find_image_In id l i : find_image id l = Some i -> In i l.
Proof. unfold find_image. intros H. apply find_some in H. apply H. Qed.

Lemma ImageStore_Get_found E id w i :
  Env.fault E (ImageStore_Get id) (World.history w) = None ->
  find_image id (World.images w) = Some i ->
  ImageStore.Get E id w = (OK i, record (ImageStore_Get id) None w).
Proof.
  intros Hf Hi. unfold ImageStore.Get. rewrite attempt_run by exact Hf.
  rewrite Hi. reflexivity.
Qed.

Lemma ImageStore_Get_absent E id w :
  find_image id (World.images w) = None ->
  exists e, ImageStore.Get E id w = (Err e, record (ImageStore_Get id) (Some e) w).
Proof.
  intros Hi. unfold ImageStore.Get.
  destruct (Env.fault E (ImageStore_Get id) (World.history w)) as [e|] eqn:Hf.
  - exists e. apply attempt_fault, Hf.
  - exists no_rows. rewrite attempt_run by exact Hf. rewrite Hi. reflexivity.
Qed.

Lemma Executor_call_eq E c w :
  Executor.call E c w =
  (Env.fault E c (World.history w),
   record c (Env.fault E c (World.history w)) w).
Proof.
  unfold Executor.call, attempt.
  destruct (Env.fault E c (World.history w)); reflexivity.
Qed.

Lemma status_http_Error w msg code :
  ResponseRecorder.wroteHeader w = false ->
  status (http_Error w msg code) = code.
Proof.
  intros H. unfold status, http_Error, Write, WriteHeader. rewrite H. simpl.
  destruct (ResponseRecorder.Closed w); reflexivity.
Qed.

Lemma find_image_mark id now l i :
  find_image id l = Some i ->
  find_image id
    (map (fun j => if Image.ID j =? id then mark_ready now j else j) l)
  = Some (mark_ready now i).
Proof.
  unfold find_image. induction l as [|j l IH]; simpl; [discriminate|].
  destruct (Image.ID j =? id) eqn:Hj.
  - intros H. inversion H. subst. simpl. rewrite Hj. reflexivity.
  - rewrite Hj. exact IH.
Qed.

Lemma ImageStore_MarkAsReady_found E image w row :
  Env.fault E (ImageStore_MarkAsReady image) (World.history w) = None ->
  find_image (Image.ID image) (World.images w) = Some row ->
  ImageStore.MarkAsReady E image w =
  (OK (mark_ready (World.now w) row),
   record (ImageStore_MarkAsReady image) None
     (set_images
        (map (fun i => if Image.ID i =? Image.ID image
                       then mark_ready (World.now w) i else i)
           (World.images w))
        (World.image_seq w) w)).
Proof.
  intros Hf Hi. unfold ImageStore.MarkAsReady.
  rewrite attempt_run by exact Hf. rewrite Hi. reflexivity.
Qed.

Lemma status_after_header w code p msg code' :
  ResponseRecorder.wroteHeader w = false ->
  status (match Encode (WriteHeader w code) p with
          | (w', Some _) => http_Error w' msg code'
          | (w', None) => w'
          end) = code.
Proof.
  intros H. unfold Encode, Write, WriteHeader, http_Error, Write, WriteHeader.
  rewrite H. simpl.
  destruct (marshals p); simpl;
    destruct (ResponseRecorder.Closed w); reflexivity.
Qed.

(** [Images.Done] on an image the Store returns as not ready, case by case
    on what the Executor and then the Store answer. *)
Lemma Done_unready
  (E : Env.t) (rw : ResponseWriter) (r : Request.t) (w : World)
  (id : Z) (image : Image.t) :
  strconv.Atoi (mux_Vars (Request.Vars r) "id") = OK id ->
  Env.fault E (ImageStore_Get id) (World.history w) = None ->
  find_image id (World.images w) = Some image ->
  Image.Ready image = false ->
  let w1 := record (ImageStore_Get id) None w in
  let ferr := Env.fault E (Executor_FinaliseImage id) (World.history w1) in
  let w2 := record (Executor_FinaliseImage id) ferr w1 in
  let merr := Env.fault E (ImageStore_MarkAsReady image) (World.history w2) in
  Images.Done E rw r w =
  match ferr with
  | Some _ =>
      (http_Error rw "could not finalise image"
         http.StatusInternalServerError, w2)
  | None =>
      match merr with
      | Some _ =>
          (http_Error rw "failed to mark image as ready"
             http.StatusInternalServerError,
           record (ImageStore_MarkAsReady image) merr w2)
      | None =>
          (match Encode (WriteHeader rw http.StatusOK)
                   (ImageJSON (mark_ready (World.now w) image)) with
           | (rw', Some _) =>
               http_Error rw' "json encoding failed"
                 http.StatusInternalServerError
           | (rw', None) => rw'
           end,
           marked image w2)
      end
  end.
Proof.
  intros Hid Hget Hfind Hready w1 ferr w2 merr.
  pose proof (find_image_ID _ _ _ Hfind) as HID.
  unfold Images.Done, bind. rewrite Hid.
  rewrite (ImageStore_Get_found _ _ _ _ Hget Hfind).
  rewrite Hready. unfold Executor.FinaliseImage.
  rewrite Executor_call_eq. rewrite HID. fold w1. fold ferr. fold w2.
  destruct ferr as [e|] eqn:Hfe; [reflexivity|].
  destruct merr as [e|] eqn:Hme.
  - unfold ImageStore.MarkAsReady.
    rewrite (attempt_fault E _ _ w2 e) by exact Hme. reflexivity.
  - rewrite (ImageStore_MarkAsReady_found E image w2 image).
    + unfold ret, marked.
      destruct (Encode (WriteHeader rw http.StatusOK)
                  (ImageJSON (mark_ready (World.now w2) image)))
        as [rw' [e|]] eqn:He; simpl in He |- *; rewrite He; reflexivity.
    + exact Hme.
    + rewrite HID. exact Hfind.
Qed.

(** C3: on an existing image that is not ready, [Images.Done] calls the
    Executor's finalisation before any Store write.  When that call fails
    the answer is 500 (InternalError), the tables are as before and the
    record still has [ready = false]; when it succeeds the one Store write
    is [MarkAsReady], after which, if the Store accepts it, the record has
    [ready = true]. *)
Theorem C3_done_marks_ready_only_after_executor
  (E : Env.t) (rw : ResponseWriter) (r : Request.t) (w : World)
  (id : Z) (image : Image.t) :
  strconv.Atoi (mux_Vars (Request.Vars r) "id") = OK id ->
  Env.fault E (ImageStore_Get id) (World.history w) = None ->
  find_image id (World.images w) = Some image ->
  Image.Ready image = false ->
  ResponseRecorder.wroteHeader rw = false ->
  let h1 := World.history w ++ [ev (ImageStore_Get id) None] in
  let ferr := Env.fault E (Executor_FinaliseImage id) h1 in
  let merr := Env.fault E (ImageStore_MarkAsReady image)
                (h1 ++ [ev (Executor_FinaliseImage id) None]) in
  let res := Images.Done E rw r w in
  (ferr <> None ->
     kind_of_status (status (fst res)) = Some InternalError /\
     same_tables w (snd res) /\
     find_image id (World.images (snd res)) = Some image /\
     events_since w (snd res) =
       [ev (ImageStore_Get id) None; ev (Executor_FinaliseImage id) ferr]) /\
  (ferr = None ->
     events_since w (snd res) =
       [ev (ImageStore_Get id) None; ev (Executor_FinaliseImage id) None;
        ev (ImageStore_MarkAsReady image) merr] /\
     (merr = None ->
        status (fst res) = http.StatusOK /\
        exists image', find_image id (World.images (snd res)) = Some image'
                       /\ Image.Ready image' = true)).
Proof.
  intros Hid Hget Hfind Hready Hrw h1 ferr merr res.
  pose proof (find_image_ID _ _ _ Hfind) as HID.
  pose proof (Done_unready E rw r w id image Hid Hget Hfind Hready) as Heq.
  cbv zeta in Heq. fold res in Heq.
  change (World.history (record (ImageStore_Get id) None w)) with h1 in Heq.
  fold ferr in Heq.
  split.
  - intros Hferr. destruct ferr as [e|] eqn:Hfe; [|congruence].
    rewrite Heq. simpl fst. simpl snd. split; [|split; [|split]].
    + rewrite status_http_Error by exact Hrw. reflexivity.
    + repeat split.
    + exact Hfind.
    + apply events_since_app. simpl. unfold h1. rewrite <- app_assoc.
      reflexivity.
  - intros Hferr. rewrite Hferr in Heq.
    change (Env.fault E (ImageStore_MarkAsReady image) _) with merr in Heq.
    destruct merr as [e|] eqn:Hme; rewrite Heq; simpl snd.
    + split; [|discriminate].
      apply events_since_app. simpl. unfold h1. rewrite <- !app_assoc.
      reflexivity.
    + split.
      * apply events_since_app. simpl. unfold h1. rewrite <- !app_assoc.
        reflexivity.
      * intros _. split.
        -- simpl fst. apply status_after_header. exact Hrw.
        -- exists (mark_ready (World.now w) image). split; [|reflexivity].
           simpl. rewrite HID. apply find_image_mark. exact Hfind.
Qed.

Lemma C3_done_marks_ready_only_after_executor_witness :
  let res := Images.Done (failing fails_FinaliseImage "btrfs error")
               NewRecorder (request "1" "") world_unready in
  kind_of_status (status (fst res)) = Some InternalError /\
  same_tables world_unready (snd res) /\
  find_image 1 (World.images (snd res)) = Some image1 /\
  events_since world_unready (snd res) =
    [ev (ImageStore_Get 1) None;
     ev (Executor_FinaliseImage 1) (Some "btrfs error")].
Proof.
  refine (proj1 (C3_done_marks_ready_only_after_executor
                   (failing fails_FinaliseImage "btrfs error")
                   NewRecorder (request "1" "") world_unready 1 image1
                   eq_refl eq_refl eq_refl eq_refl eq_refl) _).
  discriminate.
Defined.

Lemma Done_ready
  (E : Env.t) (rw : ResponseWriter) (r : Request.t) (w : World)
  (id : Z) (image : Image.t) :
  strconv.Atoi (mux_Vars (Request.Vars r) "id") = OK id ->
  Env.fault E (ImageStore_Get id) (World.history w) = None ->
  find_image id (World.images w) = Some image ->
  Image.Ready image = true ->
  Images.Done E rw r w =
  (http_Error rw "image is already finalised" http.StatusBadRequest,
   record (ImageStore_Get id) None w).
Proof.
  intros Hid Hget Hfind Hready. unfold Images.Done, bind. rewrite Hid.
  rewrite (ImageStore_Get_found _ _ _ _ Hget Hfind). rewrite Hready.
  reflexivity.
Qed.

Lemma Done_get_fails
  (E : Env.t) (rw : ResponseWriter) (r : Request.t) (w : World)
  (id : Z) (e : string) :
  strconv.Atoi (mux_Vars (Request.Vars r) "id") = OK id ->
  Env.fault E (ImageStore_Get id) (World.history w) = Some e ->
  Images.Done E rw r w =
  (http_Error rw "cannot find image" http.StatusNotFound,
   record (ImageStore_Get id) (Some e) w).
Proof.
  intros Hid Hget. unfold Images.Done, bind. rewrite Hid.
  unfold ImageStore.Get. rewrite (attempt_fault E _ _ w e) by exact Hget.
  reflexivity.
Qed.

Lemma Done_invalid_id
  (E : Env.t) (rw : ResponseWriter) (r : Request.t) (w : World)
  (e : string) :
  strconv.Atoi (mux_Vars (Request.Vars r) "id") = Err e ->
  Images.Done E rw r w = (http_Error rw "invalid id" http.StatusBadRequest, w).
Proof. intros Hid. unfold Images.Done. rewrite Hid. reflexivity. Qed.

(** C10: when the Executor has finalised the image and the Store then
    refuses [MarkAsReady], [Images.Done] answers 500 (InternalError); the
    record still has [ready = false] although the history holds the
    successful finalisation, and a second [Images.Done] that reads the
    image calls the Executor's finalisation again. *)
Theorem C10_failed_mark_as_ready_repeats_finalisation
  (E : Env.t) (rw rw2 : ResponseWriter) (r : Request.t) (w : World)
  (id : Z) (image : Image.t) (e : string) :
  strconv.Atoi (mux_Vars (Request.Vars r) "id") = OK id ->
  Env.fault E (ImageStore_Get id) (World.history w) = None ->
  find_image id (World.images w) = Some image ->
  Image.Ready image = false ->
  ResponseRecorder.wroteHeader rw = false ->
  let h1 := World.history w ++ [ev (ImageStore_Get id) None] in
  Env.fault E (Executor_FinaliseImage id) h1 = None ->
  Env.fault E (ImageStore_MarkAsReady image)
    (h1 ++ [ev (Executor_FinaliseImage id) None]) = Some e ->
  let res := Images.Done E rw r w in
  kind_of_status (status (fst res)) = Some InternalError /\
  same_tables w (snd res) /\
  find_image id (World.images (snd res)) = Some image /\
  events_since w (snd res) =
    [ev (ImageStore_Get id) None; ev (Executor_FinaliseImage id) None;
     ev (ImageStore_MarkAsReady image) (Some e)] /\
  (Env.fault E (ImageStore_Get id) (World.history (snd res)) = None ->
   exists ferr rest,
     events_since (snd res) (snd (Images.Done E rw2 r (snd res))) =
       ev (ImageStore_Get id) None :: ev (Executor_FinaliseImage id) ferr
       :: rest).
Proof.
  intros Hid Hget Hfind Hready Hrw h1 Hfin Hmark res.
  pose proof (Done_unready E rw r w id image Hid Hget Hfind Hready) as Heq.
  cbv zeta in Heq. fold res in Heq.
  change (World.history (record (ImageStore_Get id) None w)) with h1 in Heq.
  rewrite Hfin in Heq.
  change (Env.fault E (ImageStore_MarkAsReady image) _)
    with (Env.fault E (ImageStore_MarkAsReady image)
            (h1 ++ [ev (Executor_FinaliseImage id) None])) in Heq.
  rewrite Hmark in Heq. rewrite Heq. simpl fst. simpl snd.
  split; [|split; [|split; [|split]]].
  - rewrite status_http_Error by exact Hrw. reflexivity.
  - repeat split.
  - exact Hfind.
  - apply events_since_app. simpl. unfold h1. rewrite <- !app_assoc.
    reflexivity.
  - intros Hget2.
    set (w' := record (ImageStore_MarkAsReady image) (Some e)
                 (record (Executor_FinaliseImage id) None
                    (record (ImageStore_Get id) None w))) in *.
    pose proof (Done_unready E rw2 r w' id image Hid Hget2 Hfind Hready)
      as Heq2.
    cbv zeta in Heq2.
    set (ferr := Env.fault E (Executor_FinaliseImage id)
                   (World.history (record (ImageStore_Get id) None w')))
      in Heq2.
    exists ferr.
    destruct ferr as [e1|].
    + exists []. rewrite Heq2. apply events_since_app. simpl.
      rewrite <- !app_assoc. reflexivity.
    + match type of Heq2 with
      | _ = match ?m with _ => _ end => destruct m as [e2|]
      end.
      * exists [ev (ImageStore_MarkAsReady image) (Some e2)].
        rewrite Heq2. apply events_since_app. simpl.
        rewrite <- !app_assoc. reflexivity.
      * exists [ev (ImageStore_MarkAsReady image) None].
        rewrite Heq2. apply events_since_app. simpl.
        rewrite <- !app_assoc. reflexivity.
Qed.

Lemma C10_failed_mark_as_ready_repeats_finalisation_witness :
  let E := failing fails_MarkAsReady "connection refused" in
  let res := Images.Done E NewRecorder (request "1" "") world_unready in
  kind_of_status (status (fst res)) = Some InternalError /\
  find_image 1 (World.images (snd res)) = Some image1 /\
  executor_calls
    (events_since world_unready
       (snd (Images.Done E NewRecorder (request "1" "") (snd res))))
  = [Executor_FinaliseImage 1; Executor_FinaliseImage 1].
Proof.
  pose proof (C10_failed_mark_as_ready_repeats_finalisation
                (failing fails_MarkAsReady "connection refused")
                NewRecorder NewRecorder (request "1" "") world_unready 1
                image1 "connection refused"
                eq_refl eq_refl eq_refl eq_refl eq_refl eq_refl eq_refl)
    as [H1 [_ [H3 _]]].
  split; [exact H1|split; [exact H3|reflexivity]].
Defined.

(** C4, as stated, fails: on an image that is already finalised
    [Images.Done] answers with status 400, which is BadRequest in the
    taxonomy and not Conflict. *)
Lemma C4_done_on_ready_image_is_not_conflict :
  let res := Images.Done AllSucceed NewRecorder (request "1" "")
               world_ready in
  status (fst res) = http.StatusBadRequest /\
  kind_of_status (status (fst res)) <> Some Conflict.
Proof. split; [reflexivity|discriminate]. Qed.

(** C4 (amended): on an image whose [ready] is already true [Images.Done]
    answers 400 (BadRequest, "image is already finalised"), makes no call
    other than the read of the image, and leaves the tables as they were.
    So when one [Images.Done] has finalised an image, a second one adds no
    Executor call: over both requests the finalisation ran once. *)
Theorem C4_done_on_ready_image_is_bad_request :
  (forall (E : Env.t) (rw : ResponseWriter) (r : Request.t) (w : World)
          (id : Z) (image : Image.t),
     strconv.Atoi (mux_Vars (Request.Vars r) "id") = OK id ->
     Env.fault E (ImageStore_Get id) (World.history w) = None ->
     find_image id (World.images w) = Some image ->
     Image.Ready image = true ->
     ResponseRecorder.wroteHeader rw = false ->
     let res := Images.Done E rw r w in
     kind_of_status (status (fst res)) = Some BadRequest /\
     events_since w (snd res) = [ev (ImageStore_Get id) None] /\
     executor_calls (events_since w (snd res)) = [] /\
     same_tables w (snd res)) /\
  (forall (E : Env.t) (rw rw2 : ResponseWriter) (r : Request.t) (w : World)
          (id : Z) (image : Image.t),
     strconv.Atoi (mux_Vars (Request.Vars r) "id") = OK id ->
     Env.fault E (ImageStore_Get id) (World.history w) = None ->
     find_image id (World.images w) = Some image ->
     Image.Ready image = false ->
     let h1 := World.history w ++ [ev (ImageStore_Get id) None] in
     Env.fault E (Executor_FinaliseImage id) h1 = None ->
     Env.fault E (ImageStore_MarkAsReady image)
       (h1 ++ [ev (Executor_FinaliseImage id) None]) = None ->
     let w1 := snd (Images.Done E rw r w) in
     let w2 := snd (Images.Done E rw2 r w1) in
     executor_calls (events_since w w2) = [Executor_FinaliseImage id]).
Proof.
  split.
  - intros E rw r w id image Hid Hget Hfind Hready Hrw res.
    unfold res. rewrite (Done_ready E rw r w id image Hid Hget Hfind Hready).
    simpl fst. simpl snd.
    assert (Hev : events_since w (record (ImageStore_Get id) None w) =
                  [ev (ImageStore_Get id) None])
      by (apply events_since_app; reflexivity).
    rewrite Hev. split; [|split; [|split]].
    + rewrite status_http_Error by exact Hrw. reflexivity.
    + reflexivity.
    + reflexivity.
    + repeat split.
  - intros E rw rw2 r w id image Hid Hget Hfind Hready h1 Hfin Hmark w1 w2.
    pose proof (find_image_ID _ _ _ Hfind) as HID.
    pose proof (Done_unready E rw r w id image Hid Hget Hfind Hready) as Heq.
    cbv zeta in Heq.
    change (World.history (record (ImageStore_Get id) None w)) with h1 in Heq.
    rewrite Hfin in Heq.
    change (Env.fault E (ImageStore_MarkAsReady image) _)
      with (Env.fault E (ImageStore_MarkAsReady image)
              (h1 ++ [ev (Executor_FinaliseImage id) None])) in Heq.
    rewrite Hmark in Heq.
    assert (Hw1 : w1 = marked image
                    (record (Executor_FinaliseImage id) None
                       (record (ImageStore_Get id) None w)))
      by (unfold w1; rewrite Heq; reflexivity).
    assert (Hfind1 : find_image id (World.images w1) =
                     Some (mark_ready (World.now w) image)).
    { rewrite Hw1. simpl. rewrite HID. apply find_image_mark, Hfind. }
    assert (Hh1 : World.history w1 =
                  World.history w ++
                  [ev (ImageStore_Get id) None;
                   ev (Executor_FinaliseImage id) None;
                   ev (ImageStore_MarkAsReady image) None]).
    { rewrite Hw1. simpl. rewrite <- !app_assoc. reflexivity. }
    destruct (Env.fault E (ImageStore_Get id) (World.history w1))
      as [e|] eqn:Hget2.
    + assert (Hw2 : w2 = record (ImageStore_Get id) (Some e) w1)
        by (unfold w2; rewrite (Done_get_fails E rw2 r w1 id e Hid Hget2);
            reflexivity).
      rewrite (events_since_app w w2
                 [ev (ImageStore_Get id) None;
                  ev (Executor_FinaliseImage id) None;
                  ev (ImageStore_MarkAsReady image) None;
                  ev (ImageStore_Get id) (Some e)]).
      * reflexivity.
      * rewrite Hw2. simpl. rewrite Hh1. rewrite <- !app_assoc. reflexivity.
    + assert (Hw2 : w2 = record (ImageStore_Get id) None w1)
        by (unfold w2;
            rewrite (Done_ready E rw2 r w1 id _ Hid Hget2 Hfind1 eq_refl);
            reflexivity).
      rewrite (events_since_app w w2
                 [ev (ImageStore_Get id) None;
                  ev (Executor_FinaliseImage id) None;
                  ev (ImageStore_MarkAsReady image) None;
                  ev (ImageStore_Get id) None]).
      * reflexivity.
      * rewrite Hw2. simpl. rewrite Hh1. rewrite <- !app_assoc. reflexivity.
Qed.

Lemma C4_done_on_ready_image_is_bad_request_witness :
  let res := Images.Done AllSucceed NewRecorder (request "1" "")
               world_ready in
  (kind_of_status (status (fst res)) = Some BadRequest /\
   events_since world_ready (snd res) = [ev (ImageStore_Get 1) None] /\
   executor_calls (events_since world_ready (snd res)) = [] /\
   same_tables world_ready (snd res)) /\
  (let w1 := snd (Images.Done AllSucceed NewRecorder (request "1" "")
                    world_unready) in
   let w2 := snd (Images.Done AllSucceed NewRecorder (request "1" "") w1) in
   executor_calls (events_since world_unready w2) =
   [Executor_FinaliseImage 1]).
Proof.
  split.
  - exact (proj1 C4_done_on_ready_image_is_bad_request
             AllSucceed NewRecorder (request "1" "") world_ready 1
             image1_ready eq_refl eq_refl eq_refl eq_refl eq_refl).
  - exact (proj2 C4_done_on_ready_image_is_bad_request
             AllSucceed NewRecorder NewRecorder (request "1" "")
             world_unready 1 image1 eq_refl eq_refl eq_refl eq_refl
             eq_refl eq_refl).
Defined.

(** [Images.Create] once the body has decoded and the Store has taken the
    record. *)
Lemma Create_stored
  (E : Env.t) (rw : ResponseWriter) (r : Request.t) (w : World)
  (req : createImageRequest.t) :
  Env.decode E (Request.Body r) = OK req ->
  let image := NewImage (createImageRequest.BackedUpAt req) in
  Env.fault E (ImageStore_Create image) (World.history w) = None ->
  let row := Image.mk (World.image_seq w) (createImageRequest.BackedUpAt req)
               false (World.now w) (World.now w) in
  let w1 := record (ImageStore_Create image) None
              (set_images (World.images w ++ [row])
                 (World.image_seq w + 1) w) in
  let xerr := Env.fault E (Executor_CreateBtrfsSubvolume (World.image_seq w))
                (World.history w1) in
  let w2 := record (Executor_CreateBtrfsSubvolume (World.image_seq w)) xerr
              w1 in
  Images.Create E rw r w =
  match xerr with
  | Some e =>
      (http_Error rw (String.append "error creating btrfs subvolume: " e)
         http.StatusInternalServerError, w2)
  | None =>
      (match Encode (WriteHeader rw http.StatusCreated) (ImageJSON row) with
       | (rw', Some _) =>
           http_Error rw' "json encoding failed"
             http.StatusInternalServerError
       | (rw', None) => rw'
       end, w2)
  end.
Proof.
  intros Hdec image Hcreate row w1 xerr w2.
  unfold Images.Create, bind. rewrite Hdec. fold image.
  unfold ImageStore.Create, attempt. rewrite Hcreate.
  cbv beta iota zeta.
  change (Image.mk (World.image_seq w) (Image.BackedUpAt image)
            (Image.Ready image) (World.now w) (World.now w)) with row.
  fold w1.
  unfold Executor.CreateBtrfsSubvolume. rewrite Executor_call_eq.
  change (Image.ID row) with (World.image_seq w). fold xerr. fold w2.
  destruct xerr as [e|]; [reflexivity|].
  unfold ret.
  destruct (Encode (WriteHeader rw http.StatusCreated) (ImageJSON row))
    as [rw' [e|]]; reflexivity.
Qed.

(** C5: [Images.Create] first has the Store persist a record with
    [ready = false] under the next identifier and only then asks the
    Executor for the subvolume of that identifier.  When the Executor
    fails the answer is 500 (InternalError); the record stays in the
    table, and the only Store write of the request is the create. *)
Theorem C5_create_keeps_record_when_subvolume_fails
  (E : Env.t) (rw : ResponseWriter) (r : Request.t) (w : World)
  (req : createImageRequest.t) :
  Env.decode E (Request.Body r) = OK req ->
  let image := NewImage (createImageRequest.BackedUpAt req) in
  Env.fault E (ImageStore_Create image) (World.history w) = None ->
  ResponseRecorder.wroteHeader rw = false ->
  let row := Image.mk (World.image_seq w) (createImageRequest.BackedUpAt req)
               false (World.now w) (World.now w) in
  let xerr := Env.fault E (Executor_CreateBtrfsSubvolume (Image.ID row))
                (World.history w ++ [ev (ImageStore_Create image) None]) in
  let res := Images.Create E rw r w in
  World.images (snd res) = World.images w ++ [row] /\
  Image.Ready row = false /\
  events_since w (snd res) =
    [ev (ImageStore_Create image) None;
     ev (Executor_CreateBtrfsSubvolume (Image.ID row)) xerr] /\
  store_writes (events_since w (snd res)) = [ImageStore_Create image] /\
  (xerr <> None ->
   kind_of_status (status (fst res)) = Some InternalError) /\
  (xerr = None -> status (fst res) = http.StatusCreated).
Proof.
  intros Hdec image Hcreate Hrw row xerr res.
  pose proof (Create_stored E rw r w req Hdec Hcreate) as Heq.
  cbv zeta in Heq. fold image in Heq. fold row in Heq. fold res in Heq.
  change (Env.fault E (Executor_CreateBtrfsSubvolume (World.image_seq w)) _)
    with xerr in Heq.
  assert (Hsnd : snd res =
            record (Executor_CreateBtrfsSubvolume (World.image_seq w)) xerr
              (record (ImageStore_Create image) None
                 (set_images (World.images w ++ [row])
                    (World.image_seq w + 1) w)))
    by (rewrite Heq; destruct xerr; reflexivity).
  assert (Hev : events_since w (snd res) =
            [ev (ImageStore_Create image) None;
             ev (Executor_CreateBtrfsSubvolume (Image.ID row)) xerr]).
  { apply events_since_app. rewrite Hsnd. simpl. rewrite <- app_assoc.
    reflexivity. }
  rewrite Hev. split; [|split; [|split; [|split; [|split]]]].
  - rewrite Hsnd. reflexivity.
  - reflexivity.
  - reflexivity.
  - reflexivity.
  - intros Hx. rewrite Heq. destruct xerr as [e|]; [|congruence].
    simpl fst. rewrite status_http_Error by exact Hrw. reflexivity.
  - intros Hx. rewrite Heq. rewrite Hx. simpl fst.
    apply status_after_header. exact Hrw.
Qed.

Lemma C5_create_keeps_record_when_subvolume_fails_witness :
  let E := failing fails_CreateBtrfsSubvolume "some btrfs error" in
  let res := Images.Create E NewRecorder (request "" "1451651624")
               empty_world in
  World.images (snd res) = [Image.mk 1 timestamp false 0 0] /\
  kind_of_status (status (fst res)) = Some InternalError.
Proof.
  pose proof (C5_create_keeps_record_when_subvolume_fails
                (failing fails_CreateBtrfsSubvolume "some btrfs error")
                NewRecorder (request "" "1451651624") empty_world
                (createImageRequest.mk timestamp) eq_refl eq_refl eq_refl)
    as [H1 [_ [_ [_ [H5 _]]]]].
  split; [exact H1|]. apply H5. discriminate.
Defined.

(** C9, at the input that breaks it: a body that does not decode makes
    [Images.Create] answer 500, which is InternalError and not BadRequest;
    no call reaches the Store or the Executor. *)
Theorem C9_create_undecodable_body_is_internal_error
  (E : Env.t) (rw : ResponseWriter) (r : Request.t) (w : World)
  (e : string) :
  Env.decode E (Request.Body r) = Err e ->
  ResponseRecorder.wroteHeader rw = false ->
  let res := Images.Create E rw r w in
  status (fst res) = http.StatusInternalServerError /\
  kind_of_status (status (fst res)) <> Some BadRequest /\
  snd res = w.
Proof.
  intros Hdec Hrw res. unfold res, Images.Create. rewrite Hdec.
  unfold ret. simpl fst. simpl snd.
  rewrite status_http_Error by exact Hrw.
  split; [reflexivity|split; [discriminate|reflexivity]].
Qed.

Lemma C9_create_undecodable_body_is_internal_error_witness :
  let res := Images.Create AllSucceed NewRecorder
               (request "" "{this is: not valid}") empty_world in
  status (fst res) = http.StatusInternalServerError /\
  kind_of_status (status (fst res)) <> Some BadRequest /\
  snd res = empty_world.
Proof.
  exact (C9_create_undecodable_body_is_internal_error AllSucceed NewRecorder
           (request "" "{this is: not valid}") empty_world "invalid syntax"
           eq_refl eq_refl).
Defined.

(** The other half of C9 holds: an identifier that is not an integer makes
    [Images.Done] answer 400 (BadRequest) without any call. *)
Lemma Done_malformed_id_is_bad_request
  (E : Env.t) (rw : ResponseWriter) (r : Request.t) (w : World)
  (e : string) :
  strconv.Atoi (mux_Vars (Request.Vars r) "id") = Err e ->
  ResponseRecorder.wroteHeader rw = false ->
  let res := Images.Done E rw r w in
  kind_of_status (status (fst res)) = Some BadRequest /\ snd res = w.
Proof.
  intros Hid Hrw res. unfold res. rewrite (Done_invalid_id E rw r w e Hid).
  simpl fst. simpl snd. rewrite status_http_Error by exact Hrw.
  split; reflexivity.
Qed.

(** ** The lifecycle operations modelled from the specification *)

Lemma InstanceStore_List_eq E w :
  Env.fault E InstanceStore_List (World.history w) = None ->
  InstanceStore.List E w =
  (OK (World.instances w), record InstanceStore_List None w).
Proof.
  intros Hf. unfold InstanceStore.List. rewrite attempt_run by exact Hf.
  reflexivity.
Qed.

(** The image [Destroy] on an image the Store returns, case by case. *)
Lemma ImageLifecycle_Destroy_found (E : Env.t) (id : Z) (w : World)
  (image : Image.t) :
  Env.fault E (ImageStore_Get id) (World.history w) = None ->
  find_image id (World.images w) = Some image ->
  let w1 := record (ImageStore_Get id) None w in
  let xerr := Env.fault E (Executor_DestroyImage id) (World.history w1) in
  let w2 := record (Executor_DestroyImage id) xerr w1 in
  let derr := Env.fault E (ImageStore_Destroy image) (World.history w2) in
  ImageLifecycle.Destroy E id w =
  if existsb (references id) (World.instances w) then
    (Failure imageHasInstancesConflict, w1)
  else
    match xerr with
    | Some _ => (Failure internalServerError, w2)
    | None =>
        match derr with
        | Some _ =>
            (Failure internalServerError,
             record (ImageStore_Destroy image) derr w2)
        | None => (Success tt, image_deleted image w2)
        end
    end.
Proof.
  intros Hget Hfind w1 xerr w2 derr.
  unfold ImageLifecycle.Destroy, bind.
  rewrite (ImageStore_Get_found _ _ _ _ Hget Hfind). fold w1.
  unfold has_instances.
  change (World.instances w1) with (World.instances w).
  destruct (existsb (references id) (World.instances w)); [reflexivity|].
  unfold Executor.DestroyImage. rewrite Executor_call_eq.
  fold xerr. fold w2. destruct xerr as [e|]; [reflexivity|].
  unfold ImageStore.Destroy, attempt. fold derr.
  destruct derr as [e|]; reflexivity.
Qed.


(** C8: the instance [Create] answers NotFound for an identifier that
    names no image and Unprocessable for an image that is not ready; in
    both cases its only call is the read of the image, so no Executor call
    is made and the tables are as before. *)
Theorem C8_instance_create_preconditions :
  (forall (E : Env.t) (imageID : Z) (w : World),
     find_image imageID (World.images w) = None ->
     let res := InstanceLifecycle.Create E imageID w in
     failure_kind (fst res) = Some NotFound /\
     executor_calls (events_since w (snd res)) = [] /\
     store_writes (events_since w (snd res)) = [] /\
     same_tables w (snd res)) /\
  (forall (E : Env.t) (imageID : Z) (w : World) (image : Image.t),
     Env.fault E (ImageStore_Get imageID) (World.history w) = None ->
     find_image imageID (World.images w) = Some image ->
     Image.Ready image = false ->
     let res := InstanceLifecycle.Create E imageID w in
     failure_kind (fst res) = Some Unprocessable /\
     executor_calls (events_since w (snd res)) = [] /\
     store_writes (events_since w (snd res)) = [] /\
     same_tables w (snd res)).
Proof.
  split.
  - intros E imageID w Hfind res.
    destruct (ImageStore_Get_absent E imageID w Hfind) as [e He].
    unfold res, InstanceLifecycle.Create, bind. rewrite He.
    simpl fst. simpl snd.
    rewrite (events_since_app w _ [ev (ImageStore_Get imageID) (Some e)])
      by reflexivity.
    repeat split.
  - intros E imageID w image Hget Hfind Hready res.
    unfold res, InstanceLifecycle.Create, bind.
    rewrite (ImageStore_Get_found _ _ _ _ Hget Hfind). rewrite Hready.
    simpl fst. simpl snd.
    rewrite (events_since_app w _ [ev (ImageStore_Get imageID) None])
      by reflexivity.
    repeat split.
Qed.

Lemma C8_instance_create_preconditions_witness :
  failure_kind (fst (InstanceLifecycle.Create AllSucceed 999 world_ready))
  = Some NotFound /\
  failure_kind (fst (InstanceLifecycle.Create AllSucceed 1 world_unready))
  = Some Unprocessable.
Proof.
  split.
  - exact (proj1 (proj1 C8_instance_create_preconditions
                    AllSucceed 999 world_ready eq_refl)).
  - exact (proj1 (proj2 C8_instance_create_preconditions
                    AllSucceed 1 world_unready image1
                    eq_refl eq_refl eq_refl)).
Defined.

(** The error table of the sources has no entry of the class Conflict;
    its entry for an image that has instances is of the class
    Unprocessable. *)
Example error_table_has_no_Conflict :
  Forall (fun e => kind_of e <> Some Conflict) error_table /\
  kind_of cannotDeleteImageWithInstancesError = Some Unprocessable.
Proof. split; [repeat constructor; discriminate|reflexivity]. Qed.



(** ** The cascade *)

Lemma find_instance_ID id l i :
  find_instance id l = Some i -> Instance.ID i = id.
Proof.
  unfold find_instance. intros H. apply find_some in H.
  destruct H as [_ H]. apply Z.eqb_eq in H. exact H.
Qed.

Lemma find_instance_present id l :
  In id (map Instance.ID l) -> exists i, find_instance id l = Some i.
Proof.
  unfold find_instance. induction l as [|j l IH]; simpl; [tauto|].
  intros [H|H].
  - rewrite H, Z.eqb_refl. eauto.
  - destruct (Instance.ID j =? id); eauto.
Qed.

Lemma In_filter_other (b : Z) (j : Instance.t) (l : list Instance.t) :
  In j l -> Instance.ID j <> b ->
  In j (filter (fun i => negb (Instance.ID i =? b)) l).
Proof.
  intros Hin Hne. apply filter_In. split; [exact Hin|].
  apply negb_true_iff, Z.eqb_neq, Hne.
Qed.

Lemma filter_twice {A} (f g : A -> bool) (l : list A) :
  filter g (filter f l) = filter (fun x => f x && g x) l.
Proof.
  induction l as [|x l IH]; simpl; [reflexivity|].
  destruct (f x); simpl; [destruct (g x)|]; rewrite IH; reflexivity.
Qed.

Lemma executor_calls_app (a b : list Event.t) :
  executor_calls (a ++ b) = executor_calls a ++ executor_calls b.
Proof. unfold executor_calls. rewrite map_app, filter_app. reflexivity. Qed.

(** The instance [Destroy] when nothing fails and the instance exists. *)
Lemma InstanceLifecycle_Destroy_ok (E : Env.t) (w : World)
  (instance : Instance.t) :
  faultless E ->
  find_instance (Instance.ID instance) (World.instances w) = Some instance ->
  InstanceLifecycle.Destroy E (Instance.ID instance) w =
  (Success tt, instance_destroyed instance w).
Proof.
  intros Hnone Hfind. unfold InstanceLifecycle.Destroy, bind.
  unfold InstanceStore.Get, attempt. rewrite Hnone. rewrite Hfind.
  unfold Executor.DestroyInstance. rewrite Executor_call_eq.
  rewrite Hnone. unfold InstanceStore.Destroy, attempt. rewrite Hnone.
  reflexivity.
Qed.

Lemma find_instance_unique (l : list Instance.t) (i : Instance.t) :
  NoDup (map Instance.ID l) -> In i l ->
  find_instance (Instance.ID i) l = Some i.
Proof.
  unfold find_instance. induction l as [|j l IH]; simpl; [tauto|].
  intros Hnd [Hin|Hin].
  - subst. rewrite Z.eqb_refl. reflexivity.
  - inversion Hnd as [|x xs Hnot Hnd']. subst.
    destruct (Instance.ID j =? Instance.ID i) eqn:Hj.
    + apply Z.eqb_eq in Hj. exfalso. apply Hnot. rewrite Hj.
      apply in_map, Hin.
    + apply IH; assumption.
Qed.

Lemma NoDup_map_filter {Row Key} (keep : Row -> bool) (key : Row -> Key)
  (rows : list Row) (Hnd : NoDup (map key rows)) :
  NoDup (map key (filter keep rows)).
Proof.
  revert Hnd. induction rows as [|x l IH]; simpl; [trivial|].
  intros Hnd. inversion Hnd as [|y ys Hnot Hnd']. subst.
  destruct (keep x); simpl; [|auto].
  constructor; [|auto].
  intros Hin. apply Hnot. apply in_map_iff in Hin.
  destruct Hin as [z [Hz Hin]]. apply filter_In in Hin.
  rewrite <- Hz. apply in_map, Hin.
Qed.

Lemma filter_all {A} (p : A -> bool) (l : list A) :
  (forall x, In x l -> p x = true) -> filter p l = l.
Proof.
  induction l as [|x l IH]; simpl; [reflexivity|].
  intros H. rewrite (H x) by (left; reflexivity).
  rewrite IH; [reflexivity|]. intros y Hy. apply H. right. exact Hy.
Qed.

(** The loop of the cascade when nothing fails: every instance of [l] is
    destroyed in turn, with one Executor call each. *)
Lemma destroy_each_ok (E : Env.t) (l : list Instance.t) :
  faultless E ->
  NoDup (map Instance.ID l) ->
  forall w : World,
    (forall i, In i l -> In i (World.instances w)) ->
    unique_instances w ->
    fst (CascadeDestroy.destroy_each E l w) = Success tt /\
    World.images (snd (CascadeDestroy.destroy_each E l w)) = World.images w /\
    World.instances (snd (CascadeDestroy.destroy_each E l w)) =
      filter (not_among l) (World.instances w) /\
    exists evs,
      World.history (snd (CascadeDestroy.destroy_each E l w)) =
        World.history w ++ evs /\
      executor_calls evs = DestroyInstance_calls l.
Proof.
  intros Hnone. induction l as [|i rest IH]; intros Hnd w Hin Huniq.
  - simpl. split; [reflexivity|split; [reflexivity|split]].
    + symmetry. apply filter_all. reflexivity.
    + exists []. rewrite app_nil_r. split; reflexivity.
  - inversion Hnd as [|x xs Hnot Hnd']. subst.
    assert (Hfind : find_instance (Instance.ID i) (World.instances w) = Some i)
      by (apply find_instance_unique; [exact Huniq|apply Hin; left; reflexivity]).
    simpl CascadeDestroy.destroy_each. unfold bind.
    rewrite (InstanceLifecycle_Destroy_ok E w i Hnone Hfind).
    set (w1 := instance_destroyed i w).
    assert (Hinst1 : World.instances w1 =
              filter (fun j => negb (Instance.ID j =? Instance.ID i))
                (World.instances w)) by reflexivity.
    destruct (IH Hnd' w1) as [H1 [H2 [H3 [evs [H4 H5]]]]].
    + intros j Hj. rewrite Hinst1. apply In_filter_other.
      * apply Hin. right. exact Hj.
      * intros Heq. apply Hnot. rewrite <- Heq. apply in_map, Hj.
    + unfold unique_instances. rewrite Hinst1. apply NoDup_map_filter, Huniq.
    + split; [exact H1|split; [exact H2|split]].
      * rewrite H3, Hinst1, filter_twice. apply filter_ext. intros j.
        unfold not_among. simpl. rewrite negb_orb.
        rewrite (Z.eqb_sym (Instance.ID i)). reflexivity.
      * exists ([ev (InstanceStore_Get (Instance.ID i)) None;
                 ev (Executor_DestroyInstance (Instance.ID i)) None;
                 ev (InstanceStore_Destroy i) None] ++ evs).
        split.
        -- rewrite H4. unfold w1, instance_destroyed, instance_deleted.
           simpl. rewrite <- !app_assoc. reflexivity.
        -- rewrite executor_calls_app, H5. reflexivity.
Qed.

Lemma insert_by_id_perm (i : Instance.t) (l : list Instance.t) :
  Permutation (CascadeDestroy.insert_by_id i l) (i :: l).
Proof.
  induction l as [|j l IH]; simpl; [apply Permutation_refl|].
  destruct (Instance.ID i <=? Instance.ID j); [apply Permutation_refl|].
  eapply perm_trans; [apply perm_skip, IH|apply perm_swap].
Qed.

Lemma sort_by_id_perm (l : list Instance.t) :
  Permutation (CascadeDestroy.sort_by_id l) l.
Proof.
  induction l as [|i l IH]; simpl; [constructor|].
  eapply perm_trans; [apply insert_by_id_perm|apply perm_skip, IH].
Qed.

Lemma insert_by_id_ascending (i : Instance.t) (l : list Instance.t) :
  ascending l -> ~ In (Instance.ID i) (map Instance.ID l) ->
  ascending (CascadeDestroy.insert_by_id i l).
Proof.
  unfold ascending. induction l as [|j l IH]; simpl; intros Hs Hnot.
  - constructor; constructor.
  - destruct (Instance.ID i <=? Instance.ID j) eqn:Hle.
    + apply Z.leb_le in Hle. constructor; [exact Hs|]. constructor.
      assert (Instance.ID j <> Instance.ID i) by tauto. lia.
    + apply Z.leb_gt in Hle. inversion Hs as [|x xs Hs' Hhd]. subst.
      constructor; [apply IH; [exact Hs'|tauto]|].
      destruct l as [|k l]; simpl.
      * constructor. exact Hle.
      * destruct (Instance.ID i <=? Instance.ID k); constructor;
          [exact Hle|]. inversion Hhd. assumption.
Qed.

Lemma sort_by_id_ascending (l : list Instance.t) :
  NoDup (map Instance.ID l) -> ascending (CascadeDestroy.sort_by_id l).
Proof.
  induction l as [|i l IH]; simpl; intros Hnd; [constructor|].
  inversion Hnd as [|x xs Hnot Hnd']. subst.
  apply insert_by_id_ascending; [apply IH, Hnd'|].
  intros Hin. apply Hnot.
  eapply Permutation_in; [apply Permutation_map, sort_by_id_perm|exact Hin].
Qed.

Lemma filter_none {A} (p : A -> bool) (l : list A) :
  (forall x, In x l -> p x = false) -> filter p l = [].
Proof.
  induction l as [|x l IH]; simpl; [reflexivity|].
  intros H. rewrite (H x) by (left; reflexivity).
  apply IH. intros y Hy. apply H. right. exact Hy.
Qed.

Lemma same_ID_same_instance (l : list Instance.t) (a b : Instance.t) :
  NoDup (map Instance.ID l) -> In a l -> In b l ->
  Instance.ID a = Instance.ID b -> a = b.
Proof.
  intros Hnd Ha Hb Heq.
  pose proof (find_instance_unique l a Hnd Ha) as H1.
  pose proof (find_instance_unique l b Hnd Hb) as H2.
  rewrite Heq in H1. congruence.
Qed.

Lemma not_among_false (l : list Instance.t) (j : Instance.t) :
  In j l -> not_among l j = false.
Proof.
  intros Hin. unfold not_among. apply negb_false_iff, existsb_exists.
  exists j. split; [exact Hin|apply Z.eqb_refl].
Qed.

Lemma not_among_true (l : list Instance.t) (j : Instance.t) :
  (forall i, In i l -> Instance.ID i <> Instance.ID j) ->
  not_among l j = true.
Proof.
  intros H. unfold not_among. apply negb_true_iff.
  destruct (existsb _ l) eqn:Hex; [|reflexivity].
  apply existsb_exists in Hex. destruct Hex as [i [Hi Heq]].
  apply Z.eqb_eq in Heq. exfalso. exact (H i Hi Heq).
Qed.

(** C1: asked by the upload principal, with no call failing, the destroy
    of an existing image [X] destroys the instances whose image is [X],
    each once, in ascending order of identifier, and then the image: the
    Executor sees one instance destroy per dependent instance followed by
    one image destroy; afterwards no instance references [X], no image has
    identifier [X], and the instances of other images are as before. *)
Theorem C1_upload_destroy_cascades
  (E : Env.t) (X : Z) (w : World) (image : Image.t) :
  faultless E ->
  unique_instances w ->
  find_image X (World.images w) = Some image ->
  let dependents := filter (references X) (World.instances w) in
  let order := CascadeDestroy.sort_by_id dependents in
  let res := CascadeDestroy.Destroy E Upload X w in
  fst res = Success tt /\
  Permutation order dependents /\
  ascending order /\
  executor_calls (events_since w (snd res)) =
    DestroyInstance_calls order ++ [Executor_DestroyImage X] /\
  List.length (DestroyInstance_calls order) = List.length dependents /\
  filter (references X) (World.instances (snd res)) = [] /\
  filter (fun i => Image.ID i =? X) (World.images (snd res)) = [] /\
  filter (fun i => negb (references X i)) (World.instances (snd res)) =
    filter (fun i => negb (references X i)) (World.instances w).
Proof.
  intros Hnone Huniq Hfind dependents order res.
  pose proof (find_image_ID _ _ _ Hfind) as HID.
  pose proof (sort_by_id_perm dependents) as Hperm. fold order in Hperm.
  assert (Hnd_dep : NoDup (map Instance.ID dependents))
    by (apply NoDup_map_filter, Huniq).
  assert (Hnd : NoDup (map Instance.ID order)).
  { eapply Permutation_NoDup; [|exact Hnd_dep].
    apply Permutation_map, Permutation_sym, Hperm. }
  assert (Hin : forall i, In i order ->
                  In i (World.instances w) /\ references X i = true).
  { intros i Hi. apply filter_In.
    eapply Permutation_in; [exact Hperm|exact Hi]. }
  set (w1 := record InstanceStore_List None w).
  destruct (destroy_each_ok E order Hnone Hnd w1) as [H1 [H2 [H3 [evs [H4 H5]]]]].
  { intros i Hi. apply Hin, Hi. }
  { exact Huniq. }
  assert (Hres : res =
            let (r, w2) := CascadeDestroy.destroy_each E order w1 in
            match r with
            | Failure e => (Failure e, w2)
            | Success _ => ImageLifecycle.Destroy E X w2
            end).
  { unfold res, CascadeDestroy.Destroy, bind.
    rewrite (InstanceStore_List_eq E w (Hnone _ _)).
    fold dependents. fold order. fold w1.
    destruct (CascadeDestroy.destroy_each E order w1) as [[u|e] w2];
      reflexivity. }
  destruct (CascadeDestroy.destroy_each E order w1) as [r w2].
  simpl in H1, H2, H3, H4. subst r.
  change (World.instances w1) with (World.instances w) in H3.
  change (World.images w1) with (World.images w) in H2.
  assert (Hgone : forall j, In j (World.instances w2) ->
                    references X j = false).
  { intros j Hj. rewrite H3 in Hj. apply filter_In in Hj.
    destruct Hj as [Hj Hna].
    destruct (references X j) eqn:Hr; [|reflexivity].
    rewrite not_among_false in Hna; [discriminate|].
    eapply Permutation_in; [apply Permutation_sym, Hperm|].
    apply filter_In. split; assumption. }
  assert (Hrefs : existsb (references X) (World.instances w2) = false).
  { destruct (existsb _ (World.instances w2)) eqn:Hex; [|reflexivity].
    apply existsb_exists in Hex. destruct Hex as [j [Hj Hr]].
    rewrite (Hgone j Hj) in Hr. discriminate. }
  rewrite <- H2 in Hfind.
  pose proof (ImageLifecycle_Destroy_found E X w2 image
                (Hnone _ _) Hfind) as Heq.
  cbv zeta in Heq. rewrite Hrefs, !Hnone in Heq. rewrite Heq in Hres.
  rewrite Hres. simpl fst. simpl snd.
  split; [reflexivity|split; [exact Hperm|split; [|split; [|split]]]].
  - apply sort_by_id_ascending, Hnd_dep.
  - rewrite (events_since_app w _
               ([ev InstanceStore_List None] ++ evs ++
                [ev (ImageStore_Get X) None;
                 ev (Executor_DestroyImage X) None;
                 ev (ImageStore_Destroy image) None])).
    + rewrite !executor_calls_app, H5. reflexivity.
    + unfold image_deleted. simpl. rewrite H4. simpl.
      rewrite <- !app_assoc. reflexivity.
  - unfold DestroyInstance_calls. rewrite length_map.
    apply Permutation_length, Hperm.
  - unfold image_deleted. simpl. split; [|split].
    + apply filter_none, Hgone.
    + rewrite filter_twice. apply filter_none. intros i _.
      rewrite HID. destruct (Image.ID i =? X); reflexivity.
    + rewrite H3, filter_twice. apply filter_ext_in. intros j Hj.
      destruct (references X j) eqn:Hr; [apply andb_false_r|].
      rewrite not_among_true; [reflexivity|].
      intros i Hi Heqid. destruct (Hin i Hi) as [Hiw Hir].
      rewrite (same_ID_same_instance _ i j Huniq Hiw Hj Heqid) in Hir.
      congruence.
Qed.

Lemma C1_upload_destroy_cascades_witness :
  let res := CascadeDestroy.Destroy AllSucceed Upload 1 world_instances in
  fst res = Success tt /\
  executor_calls (events_since world_instances (snd res)) =
    [Executor_DestroyInstance 1; Executor_DestroyInstance 3;
     Executor_DestroyImage 1] /\
  World.instances (snd res) = [Instance.mk 2 2 5433 timestamp timestamp].
Proof.
  pose proof (C1_upload_destroy_cascades AllSucceed 1 world_instances
                image1_ready (fun _ _ => eq_refl)) as H.
  assert (Hu : unique_instances world_instances).
  { unfold unique_instances. simpl.
    repeat (constructor; [simpl; intuition discriminate|]). constructor. }
  destruct (H Hu eq_refl) as [H1 [_ [_ [H4 _]]]].
  split; [exact H1|split; [exact H4|reflexivity]].
Defined.

(** *** The cascade when calls may fail *)












(** ** [ready] never goes back *)

Lemma ready_kept_refl (w : World) : ready_kept w w.
Proof.
  split; [lia|split; [tauto|]]. intros i Hi _. exists i. tauto.
Qed.

Lemma ready_kept_trans (w1 w2 w3 : World) :
  ready_kept w1 w2 -> ready_kept w2 w3 -> ready_kept w1 w3.
Proof.
  intros [Hs [Hw H]] [Hs' [Hw' H']]. split; [lia|split; [tauto|]].
  intros i3 Hi3 Hlt.
  destruct (H' i3 Hi3) as [i2 [Hi2 [Hid2 Hr2]]]; [lia|].
  destruct (H i2 Hi2) as [i1 [Hi1 [Hid1 Hr1]]]; [lia|].
  exists i1. split; [exact Hi1|split; [congruence|tauto]].
Qed.

Lemma ready_kept_same (w w' : World) :
  World.images w' = World.images w ->
  World.image_seq w' = World.image_seq w ->
  ready_kept w w'.
Proof.
  intros Hi Hs. unfold ready_kept, wf_images, ids_bounded.
  rewrite Hi, Hs. split; [lia|split; [tauto|]].
  intros i Hin _. exists i. tauto.
Qed.

Lemma ready_kept_create (w : World) (row : Image.t) :
  Image.ID row = World.image_seq w ->
  ready_kept w
    (set_images (World.images w ++ [row]) (World.image_seq w + 1) w).
Proof.
  intros Hid. unfold ready_kept, wf_images, ids_bounded. simpl.
  split; [lia|split].
  - intros [Hnd Hb]. split.
    + rewrite map_app. simpl.
      eapply Permutation_NoDup; [apply Permutation_cons_append|].
      constructor; [|exact Hnd].
      intros Hin. apply in_map_iff in Hin. destruct Hin as [i [Hi Hin]].
      specialize (Hb i Hin). lia.
    + intros i Hi. apply in_app_or in Hi. destruct Hi as [Hi|[Hi|[]]].
      * specialize (Hb i Hi). lia.
      * subst. lia.
  - intros i Hi Hlt. apply in_app_or in Hi. destruct Hi as [Hi|[Hi|[]]].
    + exists i. tauto.
    + subst. lia.
Qed.

Lemma ready_kept_update (w : World) (f : Image.t -> Image.t) :
  (forall i, Image.ID (f i) = Image.ID i) ->
  (forall i, Image.Ready i = true -> Image.Ready (f i) = true) ->
  ready_kept w (set_images (map f (World.images w)) (World.image_seq w) w).
Proof.
  intros Hid Hr. unfold ready_kept, wf_images, ids_bounded. simpl.
  split; [lia|split].
  - intros [Hnd Hb]. split.
    + rewrite map_map. rewrite (map_ext _ Image.ID) by exact Hid. exact Hnd.
    + intros i Hi. apply in_map_iff in Hi. destruct Hi as [j [Hj Hin]].
      subst. rewrite Hid. apply Hb, Hin.
  - intros i Hi _. apply in_map_iff in Hi. destruct Hi as [j [Hj Hin]].
    subst. exists j. split; [exact Hin|split; [symmetry; apply Hid|apply Hr]].
Qed.

Lemma ready_kept_delete (w : World) (p : Image.t -> bool) :
  ready_kept w (set_images (filter p (World.images w)) (World.image_seq w) w).
Proof.
  unfold ready_kept, wf_images, ids_bounded. simpl.
  split; [lia|split].
  - intros [Hnd Hb]. split; [apply NoDup_map_filter, Hnd|].
    intros i Hi. apply filter_In in Hi. apply Hb, Hi.
  - intros i Hi _. apply filter_In in Hi. exists i. tauto.
Qed.

Lemma ready_kept_record (w w' : World) (c : Call) (e : option string) :
  ready_kept w w' -> ready_kept w (record c e w').
Proof. intros H. exact H. Qed.

Lemma preserves_ret {A} (a : A) : preserves (ret a).
Proof. intros w. apply ready_kept_refl. Qed.

Lemma preserves_bind {A B} (m : M A) (k : A -> M B) :
  preserves m -> (forall a, preserves (k a)) -> preserves (bind m k).
Proof.
  intros Hm Hk w. unfold bind. specialize (Hm w).
  destruct (m w) as [a w1]. simpl in Hm.
  eapply ready_kept_trans; [exact Hm|apply Hk].
Qed.

Lemma preserves_attempt {A} (E : Env.t) (c : Call)
  (run : World -> result A * World) :
  (forall w, ready_kept w (snd (run w))) -> preserves (attempt E c run).
Proof.
  intros H w. unfold attempt.
  destruct (Env.fault E c (World.history w)).
  - simpl. apply ready_kept_record, ready_kept_refl.
  - specialize (H w). destruct (run w) as [r w1]. simpl in *.
    apply ready_kept_record, H.
Qed.

Lemma preserves_Executor_call (E : Env.t) (c : Call) :
  preserves (Executor.call E c).
Proof.
  intros w. rewrite Executor_call_eq. simpl.
  apply ready_kept_record, ready_kept_refl.
Qed.

Lemma preserves_ImageStore_List E : preserves (ImageStore.List E).
Proof. apply preserves_attempt. intros w. apply ready_kept_refl. Qed.

Lemma preserves_ImageStore_Get E id : preserves (ImageStore.Get E id).
Proof.
  apply preserves_attempt. intros w.
  destruct (find_image id (World.images w)); apply ready_kept_refl.
Qed.

Lemma preserves_ImageStore_Create E image :
  preserves (ImageStore.Create E image).
Proof.
  apply preserves_attempt. intros w. apply ready_kept_create. reflexivity.
Qed.

Lemma preserves_ImageStore_MarkAsReady E image :
  preserves (ImageStore.MarkAsReady E image).
Proof.
  apply preserves_attempt. intros w.
  destruct (find_image (Image.ID image) (World.images w));
    [|apply ready_kept_refl].
  apply ready_kept_update; intros i;
    destruct (Image.ID i =? Image.ID image); reflexivity || tauto.
Qed.

Lemma preserves_ImageStore_Destroy E image :
  preserves (ImageStore.Destroy E image).
Proof. apply preserves_attempt. intros w. apply ready_kept_delete. Qed.

Lemma preserves_InstanceStore_List E : preserves (InstanceStore.List E).
Proof. apply preserves_attempt. intros w. apply ready_kept_refl. Qed.

Lemma preserves_InstanceStore_Get E id : preserves (InstanceStore.Get E id).
Proof.
  apply preserves_attempt. intros w.
  destruct (find_instance id (World.instances w)); apply ready_kept_refl.
Qed.

Lemma preserves_InstanceStore_Create E i :
  preserves (InstanceStore.Create E i).
Proof.
  apply preserves_attempt. intros w. apply ready_kept_same; reflexivity.
Qed.

Lemma preserves_InstanceStore_Destroy E i :
  preserves (InstanceStore.Destroy E i).
Proof.
  apply preserves_attempt. intros w. apply ready_kept_same; reflexivity.
Qed.

Lemma preserves_Executor_CreateInstance E id :
  preserves (Executor.CreateInstance E id).
Proof. apply preserves_attempt. intros w. apply ready_kept_refl. Qed.

Lemma preserves_has_instances id : preserves (has_instances id).
Proof. intros w. apply ready_kept_refl. Qed.

Create HintDb preserve.
#[local] Hint Resolve
  preserves_has_instances preserves_Executor_call preserves_ImageStore_List preserves_ImageStore_Get
  preserves_ImageStore_Create preserves_ImageStore_MarkAsReady
  preserves_ImageStore_Destroy preserves_InstanceStore_List
  preserves_InstanceStore_Get preserves_InstanceStore_Create
  preserves_InstanceStore_Destroy preserves_Executor_CreateInstance
  : preserve.

(** Walks a handler: a bind splits, a branch on a result is taken both
    ways, a call is closed by its own lemma. *)
Ltac preserve :=
  repeat first
    [ apply preserves_ret
    | solve [auto with preserve]
    | apply preserves_bind; [|intros ?]
    | match goal with
      | |- preserves (match ?x with _ => _ end) => destruct x
      | |- preserves (let _ := _ in _) => cbv zeta
      end ].

Lemma preserves_Images_List E rw r : preserves (Images.List E rw r).
Proof. unfold Images.List. preserve. Qed.

Lemma preserves_Images_Create E rw r : preserves (Images.Create E rw r).
Proof.
  unfold Images.Create, Executor.CreateBtrfsSubvolume. preserve.
Qed.

Lemma preserves_Images_Done E rw r : preserves (Images.Done E rw r).
Proof. unfold Images.Done, Executor.FinaliseImage. preserve. Qed.

Lemma preserves_ImageLifecycle_Destroy E id :
  preserves (ImageLifecycle.Destroy E id).
Proof. unfold ImageLifecycle.Destroy, Executor.DestroyImage. preserve. Qed.

Lemma preserves_InstanceLifecycle_Create E id :
  preserves (InstanceLifecycle.Create E id).
Proof. unfold InstanceLifecycle.Create. preserve. Qed.

Lemma preserves_InstanceLifecycle_Destroy E id :
  preserves (InstanceLifecycle.Destroy E id).
Proof.
  unfold InstanceLifecycle.Destroy, Executor.DestroyInstance. preserve.
Qed.

Lemma preserves_destroy_each E l :
  preserves (CascadeDestroy.destroy_each E l).
Proof.
  induction l as [|i rest IH]; simpl; [apply preserves_ret|].
  apply preserves_bind; [apply preserves_InstanceLifecycle_Destroy|].
  intros [u|e]; [exact IH|].
  destruct (is_not_found e); [exact IH|apply preserves_ret].
Qed.

Lemma preserves_CascadeDestroy_Destroy E p id :
  preserves (CascadeDestroy.Destroy E p id).
Proof.
  destruct p; simpl; [apply preserves_ImageLifecycle_Destroy|].
  apply preserves_bind; [auto with preserve|]. intros [instances|e];
    [|apply preserves_ret].
  apply preserves_bind; [apply preserves_destroy_each|].
  intros [u|e]; [apply preserves_ImageLifecycle_Destroy|apply preserves_ret].
Qed.

Lemma ready_kept_step (E : Env.t) (op : Op) (w : World) :
  ready_kept w (step E op w).
Proof.
  destruct op; simpl.
  - apply preserves_Images_List.
  - apply preserves_Images_Create.
  - apply preserves_Images_Done.
  - apply preserves_CascadeDestroy_Destroy.
  - apply preserves_InstanceLifecycle_Create.
  - apply preserves_InstanceLifecycle_Destroy.
Qed.

Lemma ready_kept_run (E : Env.t) (ops : list Op) :
  forall w, ready_kept w (run E ops w).
Proof.
  induction ops as [|op ops IH]; intros w; simpl.
  - apply ready_kept_refl.
  - eapply ready_kept_trans; [apply ready_kept_step|apply IH].
Qed.

(** Every state reached from the empty world has a well-formed image
    table. *)
Lemma wf_images_reachable (E : Env.t) (ops : list Op) :
  wf_images (run E ops empty_world).
Proof.
  apply (ready_kept_run E ops empty_world).
  split; [constructor|]. intros i [].
Qed.

Lemma same_ID_same_image (l : list Image.t) (a b : Image.t) :
  NoDup (map Image.ID l) -> In a l -> In b l ->
  Image.ID a = Image.ID b -> a = b.
Proof.
  induction l as [|x l IH]; simpl; [tauto|].
  intros Hnd Ha Hb Heq. inversion Hnd as [|y ys Hnot Hnd']. subst.
  destruct Ha as [Ha|Ha], Hb as [Hb|Hb]; subst.
  - reflexivity.
  - exfalso. apply Hnot. rewrite Heq. apply in_map, Hb.
  - exfalso. apply Hnot. rewrite <- Heq. apply in_map, Ha.
  - apply IH; assumption.
Qed.

(** C2: [ready] is monotone.  From a well-formed image table, whatever
    operations run afterwards (the handlers of routes/images.go, the
    destroy of an image by either principal, the create and destroy of
    instances), an image that was ready is, for as long as a record with
    its identifier exists, ready. *)
Theorem C2_ready_is_monotone
  (E : Env.t) (ops : list Op) (w : World) (i i' : Image.t) :
  wf_images w ->
  In i (World.images w) ->
  Image.Ready i = true ->
  In i' (World.images (run E ops w)) ->
  Image.ID i' = Image.ID i ->
  Image.Ready i' = true.
Proof.
  intros [Hnd Hb] Hi Hr Hi' Hid.
  destruct (ready_kept_run E ops w) as [_ [_ H]].
  destruct (H i' Hi') as [i0 [Hi0 [Hid0 Hr0]]].
  - rewrite Hid. apply Hb, Hi.
  - assert (i0 = i)
      by (apply (same_ID_same_image _ _ _ Hnd Hi0 Hi); congruence).
    subst. apply Hr0, Hr.
Qed.

Lemma C2_ready_is_monotone_witness :
  let ops := [Images_Done NewRecorder (request "1" "");
              Images_Create NewRecorder (request "" "1451651624");
              Instance_Create 1;
              Image_Destroy Ordinary 1] in
  In image1_ready (World.images (run AllSucceed ops world_ready)) /\
  Image.Ready image1_ready = true.
Proof.
  split; [left; reflexivity|].
  apply (C2_ready_is_monotone AllSucceed
           [Images_Done NewRecorder (request "1" "");
            Images_Create NewRecorder (request "" "1451651624");
            Instance_Create 1;
            Image_Destroy Ordinary 1]
           world_ready image1_ready image1_ready).
  - split.
    + simpl. constructor; [simpl; tauto|constructor].
    + intros i [Hi|[]]. subst. reflexivity.
  - left. reflexivity.
  - reflexivity.
  - left. reflexivity.
  - reflexivity.
Defined.

(** * Further properties of routes/images.go *)

(** ** What a handler does to the world does not depend on the writer *)

Lemma snd_ret {A} (a : A) (w : World) : snd (ret a w) = w.
Proof. reflexivity. Qed.

Ltac split_writer :=
  repeat match goal with
         | |- context [Encode ?rw ?p] =>
             let rw' := fresh "rw" in
             let e := fresh "e" in
             destruct (Encode rw p) as [rw' [e|]]
         end; reflexivity.

(** X1: the Store and Executor calls of a handler, and the tables it
    leaves, are the same whatever the response writer does: a client that
    has hung up changes nothing of what is done. *)
Theorem handlers_ignore_the_writer
  (E : Env.t) (rw1 rw2 : ResponseWriter) (r : Request.t) (w : World) :
  snd (Images.List E rw1 r w) = snd (Images.List E rw2 r w) /\
  snd (Images.Create E rw1 r w) = snd (Images.Create E rw2 r w) /\
  snd (Images.Done E rw1 r w) = snd (Images.Done E rw2 r w).
Proof.
  split; [|split].
  - unfold Images.List, bind.
    destruct (ImageStore.List E w) as [[images|e] w1]; [|reflexivity].
    unfold ret. split_writer.
  - unfold Images.Create, bind.
    destruct (Env.decode E (Request.Body r)) as [req|e]; [|reflexivity].
    destruct (ImageStore.Create E _ w) as [[image|e] w1]; [|reflexivity].
    destruct (Executor.CreateBtrfsSubvolume E (Image.ID image) w1)
      as [[e|] w2]; [reflexivity|].
    unfold ret. split_writer.
  - unfold Images.Done, bind.
    destruct (strconv.Atoi _) as [id|e]; [|reflexivity].
    destruct (ImageStore.Get E id w) as [[image|e] w1]; [|reflexivity].
    destruct (Image.Ready image); [reflexivity|].
    destruct (Executor.FinaliseImage E (Image.ID image) w1) as [[e|] w2];
      [reflexivity|].
    destruct (ImageStore.MarkAsReady E image w2) as [[image'|e] w3];
      [|reflexivity].
    unfold ret. split_writer.
Qed.

(** ** [Images.List] *)

Lemma ImageStore_List_eq E w :
  ImageStore.List E w =
  let o := Env.fault E ImageStore_List (World.history w) in
  (match o with Some e => Err e | None => OK (World.images w) end,
   record ImageStore_List o w).
Proof.
  unfold ImageStore.List, attempt.
  destruct (Env.fault E ImageStore_List (World.history w)); reflexivity.
Qed.

(** X2: [Images.List] only reads.  Its one call is the Store's [List];
    the tables are as before.  On a fresh writer the status is 500 when
    that call fails, and also when it succeeds with a table that cannot be
    marshalled (a time whose year is outside 0..9999): nothing has been
    written then, so the handler's [http.Error] decides.  It is 200 when
    the call succeeds and the table marshals, and on an open connection
    the body is then exactly the Store's table. *)
Theorem Images_List_only_reads
  (E : Env.t) (rw : ResponseWriter) (r : Request.t) (w : World) :
  let res := Images.List E rw r w in
  let o := Env.fault E ImageStore_List (World.history w) in
  let table := ImagesJSON (World.images w) in
  same_tables w (snd res) /\
  events_since w (snd res) = [ev ImageStore_List o] /\
  (ResponseRecorder.wroteHeader rw = false ->
   (o <> None -> status (fst res) = http.StatusInternalServerError) /\
   (o = None -> marshals table = false ->
    status (fst res) = http.StatusInternalServerError /\
    (ResponseRecorder.Closed rw = false ->
     ResponseRecorder.Body (fst res) =
       ResponseRecorder.Body rw ++
       [Text (String.append "json encoding failed" newline)])) /\
   (o = None -> marshals table = true ->
    status (fst res) = http.StatusOK /\
    (ResponseRecorder.Closed rw = false ->
     ResponseRecorder.Body (fst res) =
       ResponseRecorder.Body rw ++ [table]))).
Proof.
  intros res o table.
  assert (Hres : res =
    match o with
    | Some e => (http_Error rw (String.append "routes error: " e)
                   http.StatusInternalServerError,
                 record ImageStore_List o w)
    | None => (match Encode rw table with
               | (rw', Some _) => http_Error rw' "json encoding failed"
                                    http.StatusInternalServerError
               | (rw', None) => rw'
               end, record ImageStore_List o w)
    end).
  { unfold res, Images.List, bind. rewrite ImageStore_List_eq.
    cbv zeta. fold o. destruct o as [e|]; [reflexivity|].
    unfold ret. fold table.
    destruct (Encode rw table) as [rw' [e|]]; reflexivity. }
  assert (Hsnd : snd res = record ImageStore_List o w)
    by (rewrite Hres; destruct o; reflexivity).
  rewrite Hsnd. split; [apply same_tables_record|split].
  - apply events_since_app. reflexivity.
  - intros Hrw. split; [|split].
    + intros Ho. rewrite Hres. destruct o as [e|]; [|congruence].
      simpl fst. apply status_http_Error, Hrw.
    + intros Ho Hm. rewrite Hres, Ho. simpl fst.
      unfold Encode. rewrite Hm. split.
      * apply status_http_Error, Hrw.
      * intros Hc. unfold http_Error, Write, WriteHeader.
        rewrite Hrw. simpl. rewrite Hc. reflexivity.
    + intros Ho Hm. rewrite Hres, Ho. simpl fst.
      unfold Encode. rewrite Hm.
      unfold Write, WriteHeader, http_Error, Write, WriteHeader, status.
      rewrite Hrw. simpl.
      destruct (ResponseRecorder.Closed rw); simpl; split;
        try reflexivity; discriminate.
Qed.

Lemma Images_List_only_reads_witness :
  (let res := Images.List AllSucceed NewRecorder (request "" "")
                world_instances in
   status (fst res) = http.StatusOK /\
   ResponseRecorder.Body (fst res) =
     [ImagesJSON (World.images world_instances)]) /\
  (let w := World.mk [image_of_year_10000] 7 [] 0 timestamp [] in
   let res := Images.List AllSucceed NewRecorder (request "" "") w in
   status (fst res) = http.StatusInternalServerError /\
   ResponseRecorder.Body (fst res) =
     [Text (String.append "json encoding failed" newline)]).
Proof.
  split.
  - destruct (Images_List_only_reads AllSucceed NewRecorder (request "" "")
                world_instances) as [_ [_ H]].
    destruct (H eq_refl) as [_ [_ H2]].
    destruct (H2 eq_refl eq_refl) as [H3 H4].
    split; [exact H3|exact (H4 eq_refl)].
  - destruct (Images_List_only_reads AllSucceed NewRecorder (request "" "")
                (World.mk [image_of_year_10000] 7 [] 0 timestamp []))
      as [_ [_ H]].
    destruct (H eq_refl) as [_ [H2 _]].
    destruct (H2 eq_refl eq_refl) as [H3 H4].
    split; [exact H3|exact (H4 eq_refl)].
Defined.

(** ** [Images.Create] *)

Lemma Create_store_fails
  (E : Env.t) (rw : ResponseWriter) (r : Request.t) (w : World)
  (req : createImageRequest.t) (e : string) :
  Env.decode E (Request.Body r) = OK req ->
  let image := NewImage (createImageRequest.BackedUpAt req) in
  Env.fault E (ImageStore_Create image) (World.history w) = Some e ->
  Images.Create E rw r w =
  (http_Error rw (String.append "error creating image: " e)
     http.StatusInternalServerError,
   record (ImageStore_Create image) (Some e) w).
Proof.
  intros Hdec image Hf. unfold Images.Create, bind. rewrite Hdec.
  fold image. unfold ImageStore.Create.
  rewrite (attempt_fault E _ _ w e) by exact Hf. reflexivity.
Qed.

Lemma Create_undecodable
  (E : Env.t) (rw : ResponseWriter) (r : Request.t) (w : World)
  (e : string) :
  Env.decode E (Request.Body r) = Err e ->
  Images.Create E rw r w =
  (http_Error rw (String.append "json decoding failed: " e)
     http.StatusInternalServerError, w).
Proof. intros Hdec. unfold Images.Create. rewrite Hdec. reflexivity. Qed.

(** X3: when the Store refuses the new record, [Images.Create] answers
    500 and stops: the Executor is not asked for a subvolume and the
    tables are as before. *)
Theorem Create_stops_when_store_fails
  (E : Env.t) (rw : ResponseWriter) (r : Request.t) (w : World)
  (req : createImageRequest.t) (e : string) :
  Env.decode E (Request.Body r) = OK req ->
  let image := NewImage (createImageRequest.BackedUpAt req) in
  Env.fault E (ImageStore_Create image) (World.history w) = Some e ->
  ResponseRecorder.wroteHeader rw = false ->
  let res := Images.Create E rw r w in
  status (fst res) = http.StatusInternalServerError /\
  events_since w (snd res) = [ev (ImageStore_Create image) (Some e)] /\
  executor_calls (events_since w (snd res)) = [] /\
  same_tables w (snd res).
Proof.
  intros Hdec image Hf Hrw res.
  unfold res. rewrite (Create_store_fails E rw r w req e Hdec Hf).
  simpl fst. simpl snd.
  rewrite (events_since_app w _ [ev (ImageStore_Create image) (Some e)])
    by reflexivity.
  split; [apply status_http_Error, Hrw|].
  split; [reflexivity|split; [reflexivity|apply same_tables_record]].
Qed.

Lemma Create_stops_when_store_fails_witness :
  let E := failing (fun c => match c with
                             | ImageStore_Create _ => true
                             | _ => false
                             end) "connection refused" in
  let res := Images.Create E NewRecorder (request "" "1451651624")
               empty_world in
  status (fst res) = http.StatusInternalServerError /\
  World.images (snd res) = [].
Proof.
  destruct (Create_stops_when_store_fails
              (failing (fun c => match c with
                                 | ImageStore_Create _ => true
                                 | _ => false
                                 end) "connection refused")
              NewRecorder (request "" "1451651624") empty_world
              (createImageRequest.mk timestamp) "connection refused"
              eq_refl eq_refl eq_refl) as [H1 [_ [_ H4]]].
  split; [exact H1|apply H4].
Defined.

(** X4: on a fresh writer [Images.Create] answers 201 or 500, and 201
    exactly when the body decoded, the Store took the record and the
    Executor created the subvolume of the identifier the Store assigned. *)
Theorem Create_created_iff_all_succeeded
  (E : Env.t) (rw : ResponseWriter) (r : Request.t) (w : World) :
  ResponseRecorder.wroteHeader rw = false ->
  let res := Images.Create E rw r w in
  (status (fst res) = http.StatusCreated \/
   status (fst res) = http.StatusInternalServerError) /\
  (status (fst res) = http.StatusCreated <->
   exists req,
     Env.decode E (Request.Body r) = OK req /\
     Env.fault E
       (ImageStore_Create (NewImage (createImageRequest.BackedUpAt req)))
       (World.history w) = None /\
     Env.fault E (Executor_CreateBtrfsSubvolume (World.image_seq w))
       (World.history w ++
        [ev (ImageStore_Create
               (NewImage (createImageRequest.BackedUpAt req))) None])
     = None).
Proof.
  intros Hrw res. unfold res.
  destruct (Env.decode E (Request.Body r)) as [req|e] eqn:Hdec.
  - destruct (Env.fault E
                (ImageStore_Create
                   (NewImage (createImageRequest.BackedUpAt req)))
                (World.history w)) as [e|] eqn:Hf.
    + rewrite (Create_store_fails E rw r w req e Hdec Hf). simpl fst.
      rewrite status_http_Error by exact Hrw.
      split; [right; reflexivity|]. split; [discriminate|].
      intros [req' [H1 [H2 _]]]. congruence.
    + pose proof (Create_stored E rw r w req Hdec Hf) as Heq.
      cbv zeta in Heq. rewrite Heq. clear Heq.
      change (World.history
                (record (ImageStore_Create
                           (NewImage (createImageRequest.BackedUpAt req)))
                   None
                   (set_images _ _ w)))
        with (World.history w ++
              [ev (ImageStore_Create
                     (NewImage (createImageRequest.BackedUpAt req))) None]).
      destruct (Env.fault E
                  (Executor_CreateBtrfsSubvolume (World.image_seq w)) _)
        as [e|] eqn:Hx; simpl fst.
      * rewrite status_http_Error by exact Hrw.
        split; [right; reflexivity|]. split; [discriminate|].
        intros [req' [H1 [H2 H3]]].
        assert (req' = req) by congruence. subst. congruence.
      * rewrite status_after_header by exact Hrw.
        split; [left; reflexivity|]. split; [|reflexivity].
        intros _. exists req. repeat split; assumption.
  - rewrite (Create_undecodable E rw r w e Hdec). simpl fst.
    rewrite status_http_Error by exact Hrw.
    split; [right; reflexivity|]. split; [discriminate|].
    intros [req [H1 _]]. congruence.
Qed.

Lemma Create_created_iff_all_succeeded_witness :
  status (fst (Images.Create AllSucceed NewRecorder
                 (request "" "1451651624") empty_world))
  = http.StatusCreated.
Proof.
  apply (proj2 (Create_created_iff_all_succeeded AllSucceed NewRecorder
                  (request "" "1451651624") empty_world eq_refl)).
  exists (createImageRequest.mk timestamp). repeat split.
Defined.

(** X5: [Images.Create] never changes or removes a record.  The image
    table afterwards is the old one, followed - exactly when the body
    decoded and the Store accepted the create, whatever the Executor then
    answered - by one record that is not ready and carries the backup time
    of the request; the instance table is untouched. *)
Theorem Create_only_appends
  (E : Env.t) (rw : ResponseWriter) (r : Request.t) (w : World) :
  let w' := snd (Images.Create E rw r w) in
  World.instances w' = World.instances w /\
  match Env.decode E (Request.Body r) with
  | Err _ => World.images w' = World.images w
  | OK req =>
      match Env.fault E
              (ImageStore_Create
                 (NewImage (createImageRequest.BackedUpAt req)))
              (World.history w) with
      | Some _ => World.images w' = World.images w
      | None =>
          World.images w' =
          World.images w ++
          [Image.mk (World.image_seq w) (createImageRequest.BackedUpAt req)
             false (World.now w) (World.now w)]
      end
  end.
Proof.
  intros w'. unfold w'.
  destruct (Env.decode E (Request.Body r)) as [req|e] eqn:Hdec.
  - destruct (Env.fault E _ (World.history w)) as [e|] eqn:Hf.
    + rewrite (Create_store_fails E rw r w req e Hdec Hf). split; reflexivity.
    + pose proof (Create_stored E rw r w req Hdec Hf) as Heq.
      cbv zeta in Heq. rewrite Heq.
      destruct (Env.fault E
                  (Executor_CreateBtrfsSubvolume (World.image_seq w)) _);
        split; reflexivity.
  - rewrite (Create_undecodable E rw r w e Hdec). split; reflexivity.
Qed.

(** ** [Images.Done] *)

(** Every run of [Images.Done] is one of four: the identifier does not
    parse, the Store returns no image, the image is ready already, or the
    image is not ready and finalisation is tried. *)
Lemma Done_cases
  (E : Env.t) (rw : ResponseWriter) (r : Request.t) (w : World) :
  (exists e, request_id r = Err e /\
             Images.Done E rw r w =
             (http_Error rw "invalid id" http.StatusBadRequest, w))
  \/ exists id, request_id r = OK id /\
     ((exists e,
         (Env.fault E (ImageStore_Get id) (World.history w) = Some e \/
          find_image id (World.images w) = None) /\
         Images.Done E rw r w =
         (http_Error rw "cannot find image" http.StatusNotFound,
          record (ImageStore_Get id) (Some e) w))
      \/ exists image,
           Env.fault E (ImageStore_Get id) (World.history w) = None /\
           find_image id (World.images w) = Some image /\
           ((Image.Ready image = true /\
             Images.Done E rw r w =
             (http_Error rw "image is already finalised"
                http.StatusBadRequest,
              record (ImageStore_Get id) None w))
            \/ (Image.Ready image = false /\
                Images.Done E rw r w = finalise_unready E rw w id image))).
Proof.
  unfold request_id.
  destruct (strconv.Atoi (mux_Vars (Request.Vars r) "id")) as [id|e] eqn:Hid.
  - right. exists id. split; [reflexivity|].
    destruct (Env.fault E (ImageStore_Get id) (World.history w))
      as [e|] eqn:Hf.
    + left. exists e. split; [left; reflexivity|].
      apply Done_get_fails; assumption.
    + destruct (find_image id (World.images w)) as [image|] eqn:Hfind.
      * right. exists image. split; [reflexivity|split; [reflexivity|]].
        destruct (Image.Ready image) eqn:Hr.
        -- left. split; [reflexivity|]. apply (Done_ready E rw r w id image);
             assumption.
        -- right. split; [reflexivity|].
           apply (Done_unready E rw r w id image); assumption.
      * left. exists no_rows. split; [right; reflexivity|].
        unfold Images.Done, bind. rewrite Hid. unfold ImageStore.Get.
        rewrite attempt_run by exact Hf. rewrite Hfind. reflexivity.
  - left. exists e. split; [reflexivity|].
    apply (Done_invalid_id E rw r w e Hid).
Qed.

(** X6: on a fresh writer [Images.Done] answers 200, 400, 404 or 500,
    and it answers 200 only for an image that was not ready before and is
    ready afterwards, with its backup time unchanged. *)
Theorem Done_ok_means_now_ready
  (E : Env.t) (rw : ResponseWriter) (r : Request.t) (w : World) :
  ResponseRecorder.wroteHeader rw = false ->
  let res := Images.Done E rw r w in
  In (status (fst res))
     [http.StatusOK; http.StatusBadRequest; http.StatusNotFound;
      http.StatusInternalServerError] /\
  (status (fst res) = http.StatusOK ->
   exists id image image',
     request_id r = OK id /\
     find_image id (World.images w) = Some image /\
     Image.Ready image = false /\
     find_image id (World.images (snd res)) = Some image' /\
     Image.Ready image' = true /\
     Image.BackedUpAt image' = Image.BackedUpAt image).
Proof.
  intros Hrw res. unfold res.
  destruct (Done_cases E rw r w)
    as [[e [_ H]]|[id [Hid [[e [_ H]]|[image [Hf [Hfind [[_ H]|[Hr H]]]]]]]]];
    rewrite H; clear H.
  - simpl fst. rewrite status_http_Error by exact Hrw.
    split; [simpl; tauto|discriminate].
  - simpl fst. rewrite status_http_Error by exact Hrw.
    split; [simpl; tauto|discriminate].
  - simpl fst. rewrite status_http_Error by exact Hrw.
    split; [simpl; tauto|discriminate].
  - unfold finalise_unready.
    destruct (Env.fault E (Executor_FinaliseImage id) _) as [e|];
      [simpl fst; rewrite status_http_Error by exact Hrw;
       split; [simpl; tauto|discriminate]|].
    destruct (Env.fault E (ImageStore_MarkAsReady image) _) as [e|];
      [simpl fst; rewrite status_http_Error by exact Hrw;
       split; [simpl; tauto|discriminate]|].
    simpl fst. rewrite status_after_header by exact Hrw.
    split; [simpl; tauto|]. intros _.
    exists id, image, (mark_ready (World.now w) image).
    split; [exact Hid|split; [exact Hfind|split; [exact Hr|]]].
    split; [|split; reflexivity].
    simpl. rewrite (find_image_ID _ _ _ Hfind).
    apply find_image_mark, Hfind.
Qed.

Lemma Done_ok_means_now_ready_witness :
  let res := Images.Done AllSucceed NewRecorder (request "1" "")
               world_unready in
  exists image',
    find_image 1 (World.images (snd res)) = Some image' /\
    Image.Ready image' = true.
Proof.
  destruct (proj2 (Done_ok_means_now_ready AllSucceed NewRecorder
                     (request "1" "") world_unready eq_refl) eq_refl)
    as [id [image [image' [Hid [_ [_ [H1 [H2 _]]]]]]]].
  exists image'. inversion Hid. subst. split; assumption.
Defined.

Lemma marked_images (image : Image.t) (w : World) :
  World.images (marked image w) =
  map (fun i => if Image.ID i =? Image.ID image
                then mark_ready (World.now w) i else i)
    (World.images w).
Proof. reflexivity. Qed.

(** The world [finalise_unready] leaves: the tables of [w], or those of
    [w] with the records of that identifier marked ready. *)
Lemma finalise_unready_tables
  (E : Env.t) (rw : ResponseWriter) (w : World) (id : Z) (image : Image.t) :
  let w' := snd (finalise_unready E rw w id image) in
  World.instances w' = World.instances w /\
  World.image_seq w' = World.image_seq w /\
  World.instance_seq w' = World.instance_seq w /\
  (World.images w' = World.images w \/
   World.images w' =
   map (fun i => if Image.ID i =? Image.ID image
                 then mark_ready (World.now w) i else i)
     (World.images w)).
Proof.
  unfold finalise_unready.
  destruct (Env.fault E (Executor_FinaliseImage id) _) as [e|];
    [repeat split; left; reflexivity|].
  destruct (Env.fault E (ImageStore_MarkAsReady image) _) as [e|];
    [repeat split; left; reflexivity|].
  repeat split. right. reflexivity.
Qed.

(** X7: [Images.Done] adds no record and removes none; it leaves the
    instance table, both identifier sequences, and every record's
    identifier and backup time as they were.  A record under another
    identifier than the one addressed is unchanged, and a record that did
    change is ready. *)
Theorem Done_touches_one_record
  (E : Env.t) (rw : ResponseWriter) (r : Request.t) (w : World) :
  let w' := snd (Images.Done E rw r w) in
  map Image.ID (World.images w') = map Image.ID (World.images w) /\
  map Image.BackedUpAt (World.images w') =
    map Image.BackedUpAt (World.images w) /\
  World.instances w' = World.instances w /\
  World.image_seq w' = World.image_seq w /\
  World.instance_seq w' = World.instance_seq w /\
  (forall id i, request_id r = OK id -> In i (World.images w) ->
                Image.ID i <> id -> In i (World.images w')) /\
  (forall i', In i' (World.images w') ->
              In i' (World.images w) \/ Image.Ready i' = true).
Proof.
  intros w'. unfold w'.
  destruct (Done_cases E rw r w)
    as [[e [_ H]]|[id [Hid [[e [_ H]]|[image [Hf [Hfind [[_ H]|[Hr H]]]]]]]]];
    rewrite H; clear H;
    try (simpl snd; repeat split; auto; fail).
  pose proof (find_image_ID _ _ _ Hfind) as HID.
  destruct (finalise_unready_tables E rw w id image)
    as [H1 [H2 [H3 [H4|H4]]]]; rewrite H1, H2, H3, H4.
  - repeat split; auto.
  - rewrite !map_map. repeat split.
    + apply map_ext. intros i.
      destruct (Image.ID i =? Image.ID image); reflexivity.
    + apply map_ext. intros i.
      destruct (Image.ID i =? Image.ID image); reflexivity.
    + intros id' i Hid' Hi Hne. apply in_map_iff. exists i.
      split; [|exact Hi].
      assert (id' = id) by congruence. subst id'.
      rewrite HID. apply Z.eqb_neq in Hne. rewrite Hne. reflexivity.
    + intros i' Hi'. apply in_map_iff in Hi'. destruct Hi' as [i [Hi Hin]].
      destruct (Image.ID i =? Image.ID image); subst;
        [right; reflexivity|left; exact Hin].
Qed.

Lemma firstn_prefix {A} (n : nat) (l : list A) : is_prefix (firstn n l) l.
Proof. exists n. reflexivity. Qed.

(** X8: with an identifier that does not parse [Images.Done] makes no
    call.  Otherwise its calls are a non-empty beginning of: read the
    image, have the Executor finalise it, have the Store mark it ready -
    and every call but the last one made has succeeded. *)
Theorem Done_calls_in_order
  (E : Env.t) (rw : ResponseWriter) (r : Request.t) (w : World) :
  let evs := events_since w (snd (Images.Done E rw r w)) in
  (forall e, request_id r = Err e -> evs = []) /\
  (forall id, request_id r = OK id ->
     evs <> [] /\
     exists image,
       is_prefix (map Event.call evs)
         [ImageStore_Get id; Executor_FinaliseImage id;
          ImageStore_MarkAsReady image]) /\
  Forall (fun e => Event.err e = None) (removelast evs).
Proof.
  intros evs. unfold evs.
  destruct (Done_cases E rw r w)
    as [[e [Hid H]]|[id [Hid [[e [_ H]]|[image [Hf [Hfind [[_ H]|[Hr H]]]]]]]]];
    rewrite H; clear H.
  - simpl snd. rewrite (events_since_app w w []) by (symmetry; apply app_nil_r).
    split; [reflexivity|split; [|constructor]].
    intros id Hid'. congruence.
  - simpl snd.
    rewrite (events_since_app w _ [ev (ImageStore_Get id) (Some e)])
      by reflexivity.
    split; [intros e' He'; congruence|split; [|constructor]].
    intros id' Hid'. assert (id' = id) by congruence. subst.
    split; [discriminate|]. exists (NewImage 0). exists 1%nat. reflexivity.
  - simpl snd.
    rewrite (events_since_app w _ [ev (ImageStore_Get id) None])
      by reflexivity.
    split; [intros e' He'; congruence|split; [|constructor]].
    intros id' Hid'. assert (id' = id) by congruence. subst.
    split; [discriminate|]. exists image. exists 1%nat. reflexivity.
  - split; [intros e' He'; congruence|].
    unfold finalise_unready.
    destruct (Env.fault E (Executor_FinaliseImage id) _) as [e|] eqn:Hfe.
    + simpl snd.
      rewrite (events_since_app w _
                 [ev (ImageStore_Get id) None;
                  ev (Executor_FinaliseImage id) (Some e)])
        by (simpl; rewrite <- app_assoc; reflexivity).
      split; [|repeat constructor].
      intros id' Hid'. assert (id' = id) by congruence. subst.
      split; [discriminate|]. exists image. exists 2%nat. reflexivity.
    + destruct (Env.fault E (ImageStore_MarkAsReady image) _) as [e|] eqn:Hme.
      * simpl snd.
        rewrite (events_since_app w _
                   [ev (ImageStore_Get id) None;
                    ev (Executor_FinaliseImage id) None;
                    ev (ImageStore_MarkAsReady image) (Some e)])
          by (simpl; rewrite <- !app_assoc; reflexivity).
        split; [|repeat constructor].
        intros id' Hid'. assert (id' = id) by congruence. subst.
        split; [discriminate|]. exists image. exists 3%nat. reflexivity.
      * simpl snd.
        rewrite (events_since_app w _
                   [ev (ImageStore_Get id) None;
                    ev (Executor_FinaliseImage id) None;
                    ev (ImageStore_MarkAsReady image) None])
          by (simpl; rewrite <- !app_assoc; reflexivity).
        split; [|repeat constructor].
        intros id' Hid'. assert (id' = id) by congruence. subst.
        split; [discriminate|]. exists image. exists 3%nat. reflexivity.
Qed.

(** X9: for an identifier that parses but names no record,
    [Images.Done] answers 404 after the one read; no Executor call is
    made and the tables are as before. *)
Theorem Done_unknown_id_is_not_found
  (E : Env.t) (rw : ResponseWriter) (r : Request.t) (w : World) (id : Z) :
  request_id r = OK id ->
  find_image id (World.images w) = None ->
  ResponseRecorder.wroteHeader rw = false ->
  let res := Images.Done E rw r w in
  status (fst res) = http.StatusNotFound /\
  (exists e, events_since w (snd res) = [ev (ImageStore_Get id) (Some e)]) /\
  executor_calls (events_since w (snd res)) = [] /\
  same_tables w (snd res).
Proof.
  intros Hid Hfind Hrw res. unfold res.
  destruct (Done_cases E rw r w)
    as [[e [Hid' _]]|[id' [Hid' [[e [_ H]]|[image [_ [Hfind' _]]]]]]];
    try congruence.
  assert (id' = id) by congruence. subst. rewrite H. simpl fst. simpl snd.
  rewrite (events_since_app w _ [ev (ImageStore_Get id) (Some e)])
    by reflexivity.
  split; [apply status_http_Error, Hrw|].
  split; [exists e; reflexivity|split; [reflexivity|apply same_tables_record]].
Qed.

Lemma Done_unknown_id_is_not_found_witness :
  let res := Images.Done AllSucceed NewRecorder (request "999" "")
               world_unready in
  status (fst res) = http.StatusNotFound /\
  same_tables world_unready (snd res).
Proof.
  destruct (Done_unknown_id_is_not_found AllSucceed NewRecorder
              (request "999" "") world_unready 999 eq_refl eq_refl eq_refl)
    as [H1 [_ [_ H4]]].
  split; assumption.
Defined.

(** ** [Images.Create], then [Images.Done] *)

Lemma find_image_appended (l : list Image.t) (row : Image.t) :
  (forall i, In i l -> Image.ID i <> Image.ID row) ->
  find_image (Image.ID row) (l ++ [row]) = Some row.
Proof.
  unfold find_image. induction l as [|j l IH]; simpl; intros H.
  - rewrite Z.eqb_refl. reflexivity.
  - assert (Hj : (Image.ID j =? Image.ID row) = false)
      by (apply Z.eqb_neq, H; left; reflexivity).
    rewrite Hj. apply IH. intros i Hi. apply H. right. exact Hi.
Qed.

(** X10: upload, then finalise.  With identifiers below the sequence and
    no failing call, a create followed by a done on the identifier the
    create was given answers 201 and then 200, leaves the new record ready
    with the backup time of the request, and has made exactly two Executor
    calls: the subvolume, then the finalisation, both of that
    identifier. *)
Theorem Create_then_Done_makes_ready
  (E : Env.t) (rw1 rw2 : ResponseWriter) (r1 r2 : Request.t) (w : World)
  (req : createImageRequest.t) :
  faultless E ->
  ids_bounded w ->
  Env.decode E (Request.Body r1) = OK req ->
  request_id r2 = OK (World.image_seq w) ->
  ResponseRecorder.wroteHeader rw1 = false ->
  ResponseRecorder.wroteHeader rw2 = false ->
  let created := Images.Create E rw1 r1 w in
  let done := Images.Done E rw2 r2 (snd created) in
  status (fst created) = http.StatusCreated /\
  status (fst done) = http.StatusOK /\
  find_image (World.image_seq w) (World.images (snd done)) =
    Some (Image.mk (World.image_seq w) (createImageRequest.BackedUpAt req)
            true (World.now w) (World.now w)) /\
  executor_calls (events_since w (snd done)) =
    [Executor_CreateBtrfsSubvolume (World.image_seq w);
     Executor_FinaliseImage (World.image_seq w)].
Proof.
  intros Hnone Hb Hdec Hid Hrw1 Hrw2 created done.
  set (row := Image.mk (World.image_seq w) (createImageRequest.BackedUpAt req)
                false (World.now w) (World.now w)).
  set (image := NewImage (createImageRequest.BackedUpAt req)).
  pose proof (Create_stored E rw1 r1 w req Hdec (Hnone _ _)) as Hc.
  cbv zeta in Hc. rewrite Hnone in Hc. fold row image in Hc.
  fold created in Hc.
  set (w1 := record (Executor_CreateBtrfsSubvolume (World.image_seq w)) None
               (record (ImageStore_Create image) None
                  (set_images (World.images w ++ [row])
                     (World.image_seq w + 1) w))) in Hc.
  assert (Hfind : find_image (World.image_seq w) (World.images w1) = Some row).
  { change (World.images w1) with (World.images w ++ [row]).
    apply (find_image_appended (World.images w) row).
    intros i Hi. specialize (Hb i Hi). simpl. lia. }
  assert (Hsnd : snd created = w1) by (rewrite Hc; reflexivity).
  pose proof (Done_unready E rw2 r2 w1 (World.image_seq w) row Hid
                (Hnone _ _) Hfind eq_refl) as Hd.
  cbv zeta in Hd. rewrite !Hnone in Hd.
  unfold done. rewrite Hsnd, Hd. rewrite Hc. simpl fst. simpl snd.
  split; [apply status_after_header, Hrw1|].
  split; [apply status_after_header, Hrw2|]. split.
  - rewrite marked_images.
    change (Image.ID row) with (World.image_seq w).
    apply (find_image_mark (World.image_seq w) (World.now w)
             (World.images w ++ [row]) row). exact Hfind.
  - rewrite (events_since_app w _
               [ev (ImageStore_Create image) None;
                ev (Executor_CreateBtrfsSubvolume (World.image_seq w)) None;
                ev (ImageStore_Get (World.image_seq w)) None;
                ev (Executor_FinaliseImage (World.image_seq w)) None;
                ev (ImageStore_MarkAsReady row) None]).
    + reflexivity.
    + unfold marked. simpl. rewrite <- !app_assoc. reflexivity.
Qed.

Lemma Create_then_Done_makes_ready_witness :
  let created := Images.Create AllSucceed NewRecorder
                   (request "" "1451651624") world_unready in
  let done := Images.Done AllSucceed NewRecorder (request "2" "")
                (snd created) in
  status (fst done) = http.StatusOK /\
  find_image 2 (World.images (snd done)) =
    Some (Image.mk 2 timestamp true timestamp timestamp).
Proof.
  assert (Hb : ids_bounded world_unready).
  { intros i [Hi|[]]. subst. reflexivity. }
  destruct (Create_then_Done_makes_ready AllSucceed NewRecorder NewRecorder
              (request "" "1451651624") (request "2" "") world_unready
              (createImageRequest.mk timestamp)
              (fun _ _ => eq_refl) Hb eq_refl eq_refl eq_refl eq_refl)
    as [_ [H2 [H3 _]]].
  split; assumption.
Defined.

(** * main.go: routing *)

Lemma split_slash_cons (s : string) :
  exists x xs, split_slash s = x :: xs.
Proof.
  induction s as [|c s IH]; simpl; [eauto|].
  destruct (Ascii.eqb c slash); [eauto|].
  destruct IH as [x [xs H]]. rewrite H. eauto.
Qed.

(** Joining the segments with slashes gives the text back. *)
Lemma concat_split_slash (s : string) :
  String.concat "/" (split_slash s) = s.
Proof.
  induction s as [|c s IH]; simpl; [reflexivity|].
  destruct (Ascii.eqb c slash) eqn:Hc.
  - apply Ascii.eqb_eq in Hc. subst c.
    destruct (split_slash_cons s) as [x [xs H]]. rewrite H in *.
    simpl in *. rewrite IH. reflexivity.
  - destruct (split_slash_cons s) as [x [xs H]]. rewrite H in *.
    destruct xs; simpl in *; rewrite <- IH; reflexivity.
Qed.

Lemma split_slash_no_slash (s x : string) :
  In x (split_slash s) -> has_slash x = false.
Proof.
  revert x. induction s as [|c s IH]; simpl; intros x Hx.
  - destruct Hx as [Hx|[]]. subst. reflexivity.
  - destruct (Ascii.eqb c slash) eqn:Hc.
    + destruct Hx as [Hx|Hx]; [subst; reflexivity|apply IH, Hx].
    + destruct (split_slash_cons s) as [y [ys H]]. rewrite H in *.
      destruct Hx as [Hx|Hx].
      * subst. simpl. rewrite Hc. apply IH. left. reflexivity.
      * apply IH. right. exact Hx.
Qed.

Lemma split_slash_single (a : string) :
  has_slash a = false -> split_slash a = [a].
Proof.
  induction a as [|c a IH]; simpl; [reflexivity|].
  intros H. apply orb_false_iff in H. destruct H as [Hc Ha].
  rewrite Hc, (IH Ha). reflexivity.
Qed.

Lemma split_slash_app (a rest : string) :
  has_slash a = false ->
  split_slash (String.append a (String slash rest)) = a :: split_slash rest.
Proof.
  induction a as [|c a IH]; simpl; intros H.
  - reflexivity.
  - apply orb_false_iff in H. destruct H as [Hc Ha].
    rewrite Hc, (IH Ha). reflexivity.
Qed.

Lemma segments_done_path (id : string) :
  has_slash id = false ->
  segments (done_path id) = Some ["images"; id; "done"].
Proof.
  intros H. unfold done_path. simpl. f_equal.
  change (String "/" "done") with (String slash "done").
  rewrite (split_slash_app id "done" H). reflexivity.
Qed.

Lemma segments_join (path : string) (segs : list string) :
  segments path = Some segs ->
  path = String slash (String.concat "/" segs) /\
  forall x, In x segs -> has_slash x = false.
Proof.
  unfold segments. destruct path as [|c rest]; [discriminate|].
  destruct (Ascii.eqb c slash) eqn:Hc; [|discriminate].
  intros H. inversion H. subst. apply Ascii.eqb_eq in Hc. subst.
  split; [rewrite concat_split_slash; reflexivity|].
  intros x. apply split_slash_no_slash.
Qed.

#[local] Arguments String.eqb : simpl never.

Ltac eqb_facts :=
  repeat match goal with
         | H : (_ || false) = true |- _ => rewrite orb_false_r in H
         | H : String.eqb _ _ = true |- _ => apply String.eqb_eq in H
         end.

Ltac route_cases :=
  unfold route_matches, method_allowed in *; simpl in *;
  repeat match goal with
         | H : context [if ?b then _ else _] |- _ =>
             destruct b eqn:?; try discriminate
         end;
  eqb_facts; subst; try discriminate; try reflexivity.

(** X11: at most one of the routes main.go registers matches a request,
    so the order in which they are registered decides nothing. *)
Theorem at_most_one_route_matches
  (method : string) (segs : list string) (rt1 rt2 : Route.t)
  (v1 v2 : list (string * string)) :
  In rt1 routes -> In rt2 routes ->
  route_matches method segs rt1 = Some v1 ->
  route_matches method segs rt2 = Some v2 ->
  rt1 = rt2.
Proof.
  intros H1 H2 M1 M2.
  destruct segs as [|a [|b [|c [|d segs]]]];
    unfold routes in H1, H2; simpl in H1, H2;
    repeat match goal with
           | H : _ \/ _ |- _ => destruct H as [H|H]
           | H : False |- _ => destruct H
           end;
    subst; route_cases.
Qed.

Lemma at_most_one_route_matches_witness :
  Route.mk [Lit "images"; Var "id"; Lit "done"] ["POST"] Images_Done_handler
  = Route.mk [Lit "images"; Var "id"; Lit "done"] ["POST"]
      Images_Done_handler.
Proof.
  apply (at_most_one_route_matches "POST" ["images"; "1"; "done"] _ _
           [("id", "1")] [("id", "1")]).
  - simpl. tauto.
  - simpl. tauto.
  - reflexivity.
  - reflexivity.
Defined.

Lemma dispatch_done_path (id : string) :
  has_slash id = false -> clean_segment id = true ->
  dispatch "POST" (done_path id) = Some (Images_Done_handler, [("id", id)]).
Proof.
  intros Hns Hc. unfold dispatch. rewrite (segments_done_path id Hns).
  cbv - [clean_segment]. rewrite Hc. reflexivity.
Qed.

(** X12: the done handler is reached by exactly the requests
    [POST /images/{id}/done] whose [{id}] is one clean path segment, and
    it receives that segment, unchanged, as its only variable. *)
Theorem Done_is_reached_by_POST_done
  (method path : string) (vars : list (string * string)) :
  dispatch method path = Some (Images_Done_handler, vars) <->
  method = "POST" /\
  exists id, path = done_path id /\ has_slash id = false /\
             clean_segment id = true /\ vars = [("id", id)].
Proof.
  split.
  - unfold dispatch. destruct (segments path) as [segs|] eqn:Hs;
      [|discriminate].
    apply segments_join in Hs. destruct Hs as [Hp Hns]. intros H.
    destruct segs as [|a [|b [|c [|d segs]]]];
      unfold routes in H; simpl in H; route_cases.
    inversion H. subst. split; [reflexivity|].
    exists b. split; [reflexivity|]. split; [|split; [assumption|reflexivity]].
    apply Hns. right. left. reflexivity.
  - intros [Hm [id [Hp [Hns [Hc Hv]]]]]. subst.
    apply dispatch_done_path; assumption.
Qed.

Lemma Done_is_reached_by_POST_done_witness :
  dispatch "POST" "/images/bad_id/done" =
  Some (Images_Done_handler, [("id", "bad_id")]).
Proof.
  apply (proj2 (Done_is_reached_by_POST_done "POST" "/images/bad_id/done"
                  [("id", "bad_id")])).
  split; [reflexivity|]. exists "bad_id". repeat split.
Defined.

(** X13: apart from the health check, a handler is only ever reached by
    GET or POST: no route of main.go lets a request delete or replace an
    image or an instance. *)
Theorem only_GET_and_POST_are_routed
  (method path : string) (h : Handler) (vars : list (string * string)) :
  dispatch method path = Some (h, vars) ->
  h = HealthCheck \/ method = "GET" \/ method = "POST".
Proof.
  unfold dispatch. destruct (segments path) as [segs|]; [|discriminate].
  intros H.
  destruct segs as [|a [|b [|c [|d segs]]]];
    unfold routes in H; simpl in H; route_cases;
    inversion H; subst; tauto.
Qed.

Lemma only_GET_and_POST_are_routed_witness :
  Images_Create_handler = HealthCheck \/ "POST" = "GET" \/ "POST" = "POST".
Proof.
  apply (only_GET_and_POST_are_routed "POST" "/images"
           Images_Create_handler []).
  reflexivity.
Defined.

(** X14: routed and handled, [POST /images/{id}/done] with an [{id}] that
    is not an integer is answered 400 by [Images.Done] and changes
    nothing, as for the [bad_id] of TestImageDoneWithNonNumericID. *)
Theorem POST_done_with_malformed_id
  (E : Env.t) (id body e : string) (rw : ResponseWriter) (w : World) :
  has_slash id = false ->
  clean_segment id = true ->
  strconv.Atoi id = Err e ->
  ResponseRecorder.wroteHeader rw = false ->
  exists run,
    serve E "POST" (done_path id) body rw = Some run /\
    status (fst (run w)) = http.StatusBadRequest /\
    snd (run w) = w.
Proof.
  intros Hns Hc Hid Hrw.
  exists (Images.Done E rw (Request.mk [("id", id)] body None)).
  split.
  - unfold serve. rewrite (dispatch_done_path id Hns Hc). reflexivity.
  - rewrite (Done_invalid_id E rw _ w e); [|exact Hid].
    split; [apply status_http_Error, Hrw|reflexivity].
Qed.

Lemma POST_done_with_malformed_id_witness :
  exists run,
    serve AllSucceed "POST" "/images/bad_id/done" "" NewRecorder = Some run /\
    status (fst (run world_unready)) = http.StatusBadRequest /\
    snd (run world_unready) = world_unready.
Proof.
  exact (POST_done_with_malformed_id AllSucceed "bad_id" "" "invalid syntax"
           NewRecorder world_unready eq_refl eq_refl eq_refl eq_refl).
Defined.

(** * routes/errors.go: the error table *)

(** X15: every entry of the error table, and [invalidApiVersion] for any
    two versions, has its [ID] equal to its [Code] and as its [Status] one
    of the five texts 400, 401, 404, 422 and 500, which [status_of] reads
    as that number; so its class in the taxonomy is defined and is never
    Conflict.  And the [Code] decides the [Status]: two entries with the
    same code announce the same status. *)
Theorem error_table_is_consistent
  (serverVersion v : string) (e : APIError.t) :
  In e (invalidApiVersion serverVersion v :: error_table) ->
  APIError.ID e = APIError.Code e /\
  In (APIError.Status e, status_of e)
    [("400", http.StatusBadRequest); ("401", http.StatusUnauthorized);
     ("404", http.StatusNotFound); ("422", http.StatusUnprocessableEntity);
     ("500", http.StatusInternalServerError)] /\
  kind_of e <> None /\
  kind_of e <> Some Conflict /\
  (forall e', In e' (invalidApiVersion serverVersion v :: error_table) ->
              APIError.Code e' = APIError.Code e ->
              APIError.Status e' = APIError.Status e).
Proof.
  intros He. unfold error_table in *. simpl in He.
  repeat match goal with
         | H : _ \/ _ |- _ => destruct H as [H|H]
         | H : False |- _ => destruct H
         end; subst e;
    (split; [reflexivity|
     split; [vm_compute; tauto|
     split; [vm_compute; discriminate|
     split; [vm_compute; discriminate|]]]]);
    intros e' He'; simpl in He';
    repeat match goal with
           | H : _ \/ _ |- _ => destruct H as [H|H]
           | H : False |- _ => destruct H
           end; subst e'; simpl; intros Hc;
    first [reflexivity|discriminate Hc].
Qed.

Lemma error_table_is_consistent_witness :
  APIError.ID cannotDeleteImageWithInstancesError =
  APIError.Code cannotDeleteImageWithInstancesError /\
  APIError.Status cannotDeleteImageWithInstancesError = "422" /\
  kind_of cannotDeleteImageWithInstancesError <> Some Conflict.
Proof.
  destruct (error_table_is_consistent "1.0.0" "0.9.0"
              cannotDeleteImageWithInstancesError) as [H1 [_ [_ [H2 _]]]].
  - simpl. tauto.
  - split; [exact H1|split; [reflexivity|exact H2]].
Defined.

(** * The command line client *)

(** ** Identifiers printed and read back *)

Lemma digit_of_digit_char (d : Z) :
  0 <= d < 10 -> strconv.digit (digit_char d) = Some d.
Proof.
  intros H.
  assert (Hd : d = 0 \/ d = 1 \/ d = 2 \/ d = 3 \/ d = 4 \/ d = 5 \/ d = 6 \/
               d = 7 \/ d = 8 \/ d = 9) by lia.
  repeat destruct Hd as [Hd|Hd]; subst; reflexivity.
Qed.

Lemma digits_String (c : ascii) (s : string) (a : Z) :
  strconv.digits (String c s) a =
  match strconv.digit c with
  | Some d => strconv.digits s (10 * a + d)
  | None => None
  end.
Proof. reflexivity. Qed.

Lemma fmt_digits_S (fuel : nat) (n : Z) (acc : string) :
  fmt_digits (S fuel) n acc =
  if n <? 10 then String (digit_char (n mod 10)) acc
  else fmt_digits fuel (n / 10) (String (digit_char (n mod 10)) acc).
Proof. reflexivity. Qed.

Lemma digits_of_fmt_digits (fuel : nat) :
  forall (n : Z) (acc : string),
    0 <= n < 2 ^ Z.of_nat fuel ->
    exists k, 0 <= k /\
      forall a, strconv.digits (fmt_digits fuel n acc) a =
                strconv.digits acc (a * 10 ^ k + n).
Proof.
  induction fuel as [|fuel IH]; intros n acc Hn.
  - simpl in Hn. assert (n = 0) by lia. subst.
    exists 0. split; [lia|]. intros a. simpl fmt_digits. f_equal. lia.
  - rewrite fmt_digits_S. destruct (n <? 10) eqn:Hlt.
    + apply Z.ltb_lt in Hlt. exists 1. split; [lia|]. intros a.
      rewrite digits_String. rewrite Z.mod_small by lia.
      rewrite digit_of_digit_char by lia. f_equal. lia.
    + apply Z.ltb_ge in Hlt.
      assert (Hdiv : 0 <= n / 10 < 2 ^ Z.of_nat fuel).
      { split; [apply Z.div_pos; lia|].
        rewrite Nat2Z.inj_succ, Z.pow_succ_r in Hn by lia.
        apply Z.div_lt_upper_bound; lia. }
      destruct (IH (n / 10) (String (digit_char (n mod 10)) acc) Hdiv)
        as [k [Hk H]].
      exists (k + 1). split; [lia|]. intros a. rewrite H.
      rewrite digits_String.
      rewrite digit_of_digit_char by (apply Z.mod_pos_bound; lia).
      f_equal. rewrite Z.pow_add_r by lia.
      pose proof (Z.div_mod n 10). lia.
Qed.

Lemma digits_of_fmt_unsigned (n : Z) :
  0 <= n -> strconv.digits (fmt_unsigned n) 0 = Some n.
Proof.
  intros Hn. unfold fmt_unsigned.
  destruct (digits_of_fmt_digits (S (Z.to_nat (Z.log2 n))) n EmptyString)
    as [k [Hk H]].
  - split; [exact Hn|].
    rewrite Nat2Z.inj_succ, Z2Nat.id by apply Z.log2_nonneg.
    destruct (Z.eq_dec n 0) as [->|Hz]; [reflexivity|].
    apply Z.log2_spec. lia.
  - rewrite H. reflexivity.
Qed.

Lemma unsigned_of_fmt_unsigned (neg : bool) (n : Z) :
  0 <= n ->
  strconv.MinInt <= (if neg then - n else n) <= strconv.MaxInt ->
  (neg = true -> n <> 0) ->
  strconv.unsigned neg (fmt_unsigned n) = OK (if neg then - n else n) /\
  (neg = false ->
   strconv.Atoi (fmt_unsigned n) = OK n).
Proof.
  intros Hn Hr Hz. pose proof (digits_of_fmt_unsigned n Hn) as Hd.
  assert (Hrange : (strconv.MinInt <=? (if neg then - n else n)) &&
                   ((if neg then - n else n) <=? strconv.MaxInt) = true)
    by (apply andb_true_iff; split; apply Z.leb_le; lia).
  destruct (fmt_unsigned n) as [|c s] eqn:Hs.
  - assert (n = 0) by (cbn in Hd; congruence). subst.
    vm_compute in Hs. discriminate.
  - split.
    + unfold strconv.unsigned. rewrite Hd, Hrange. reflexivity.
    + intros Hneg. subst neg. unfold strconv.Atoi.
      assert (Hc : strconv.digit c <> None).
      { rewrite digits_String in Hd.
        destruct (strconv.digit c); [discriminate|discriminate]. }
      destruct (Ascii.eqb c "-") eqn:Hm.
      { apply Ascii.eqb_eq in Hm. subst. exfalso. apply Hc. reflexivity. }
      destruct (Ascii.eqb c "+") eqn:Hp.
      { apply Ascii.eqb_eq in Hp. subst. exfalso. apply Hc. reflexivity. }
      unfold strconv.unsigned. rewrite Hd, Hrange. reflexivity.
Qed.

(** X16: what [%d] prints, [strconv.Atoi] reads back: an identifier the
    client has printed ("Destroyed %d", "Created with image ID: %d") is
    accepted by [images finalise], and by [Images.Done] on the server, as
    the same identifier, over the whole range of an [int]. *)
Theorem Atoi_reads_what_fmt_d_prints (n : Z) :
  strconv.MinInt <= n <= strconv.MaxInt ->
  strconv.Atoi (fmt_d n) = OK n.
Proof.
  intros Hr. unfold fmt_d. destruct (n <? 0) eqn:Hneg.
  - apply Z.ltb_lt in Hneg. unfold strconv.Atoi.
    change (Ascii.eqb "-" "-") with true. cbv iota.
    destruct (unsigned_of_fmt_unsigned true (- n)) as [H _];
      [lia|rewrite Z.opp_involutive; exact Hr|intros _; lia|].
    rewrite H. rewrite Z.opp_involutive. reflexivity.
  - apply Z.ltb_ge in Hneg.
    destruct (unsigned_of_fmt_unsigned false n) as [_ H];
      [lia|exact Hr|discriminate|].
    apply H. reflexivity.
Qed.

Lemma Atoi_reads_what_fmt_d_prints_witness :
  strconv.Atoi (fmt_d (-9223372036854775808)) = OK (-9223372036854775808).
Proof.
  apply Atoi_reads_what_fmt_d_prints. unfold strconv.MinInt, strconv.MaxInt.
  lia.
Defined.

(** ** [config show] and [config set] *)

Ltac unfold_cli :=
  unfold run_action, NewClient, loadConfig, storeConfig, remote, Printf,
    Println, println, Command.print_error, effect, bindP, retP, finish in *.

Lemma length_substring_0 (n : nat) :
  forall s, (n <= String.length s)%nat ->
            String.length (substring 0 n s) = n.
Proof.
  induction n as [|n IH]; intros s Hs.
  - destruct s; reflexivity.
  - destruct s as [|c s]; simpl in *; [lia|].
    rewrite IH by lia. reflexivity.
Qed.

Lemma length_append (a b : string) :
  String.length (String.append a b) = (String.length a + String.length b)%nat.
Proof. induction a as [|c a IH]; simpl; [reflexivity|rewrite IH; reflexivity]. Qed.

(** X17: [config show] prints the access token cut to its first ten
    bytes and four stars, so at most fourteen bytes, and the same text for
    two tokens of ten bytes or more that begin alike; a token shorter than
    ten bytes is printed as it is. *)
Theorem config_show_hides_the_token_tail :
  (forall (H : Host.t) (cfg : Config.t),
     Host.Load H = OK cfg ->
     run_action (Command.config_show H) =
     (Return None,
      [LoadConfig;
       Stdout (String.append "Domain: "
                 (String.append (Config.Domain cfg) newline));
       Stdout (String.append "Access Token: "
                 (String.append
                    (Command.shown_token
                       (Token.AccessToken (Config.Token cfg))) newline));
       Stdout (String.append "Database: "
                 (String.append (Config.Database cfg) newline))])) /\
  (forall t, (String.length (Command.shown_token t) <= 14)%nat) /\
  (forall t t',
     (10 <= String.length t)%nat -> (10 <= String.length t')%nat ->
     substring 0 10 t = substring 0 10 t' ->
     Command.shown_token t = Command.shown_token t') /\
  (forall t, (String.length t < 10)%nat -> Command.shown_token t = t).
Proof.
  split; [|split; [|split]].
  - intros H cfg Hl. unfold Command.config_show. unfold_cli.
    rewrite Hl. reflexivity.
  - intros t. unfold Command.shown_token.
    destruct (String.length t <? 10)%nat eqn:Hlt.
    + apply Nat.ltb_lt in Hlt. lia.
    + apply Nat.ltb_ge in Hlt. rewrite length_append, length_substring_0
        by exact Hlt. simpl. lia.
  - intros t t' Ht Ht' Heq. unfold Command.shown_token.
    apply Nat.ltb_ge in Ht, Ht'. rewrite Ht, Ht', Heq. reflexivity.
  - intros t Ht. unfold Command.shown_token.
    apply Nat.ltb_lt in Ht. rewrite Ht. reflexivity.
Qed.

Lemma config_show_hides_the_token_tail_witness :
  Command.shown_token "ya29.a0AfH6SMBx-secret-one" =
  Command.shown_token "ya29.a0AfH6another-secret" /\
  Command.shown_token "short" = "short".
Proof.
  destruct config_show_hides_the_token_tail as [_ [_ [H3 H4]]].
  split.
  - apply H3; [simpl; lia|simpl; lia|reflexivity].
  - apply H4. simpl. lia.
Defined.

(** X18: [config set] with other than two arguments returns the error
    "Invalid arguments" without reading the configuration; with a key
    that is neither [domain] nor [database] it prints "Invalid key" and
    still returns [nil]; in neither case is anything stored. *)
Theorem config_set_rejects_without_storing (H : Host.t) (args : list string) :
  (List.length args <> 2%nat ->
   run_action (Command.config_set H args) =
   (Return (Some "Invalid arguments"),
    [Stderr (String.append Command.config_set_usage newline)])) /\
  (forall cfg,
     List.length args = 2%nat ->
     Host.Load H = OK cfg ->
     Host.ToLower H (First args) <> "domain" ->
     Host.ToLower H (First args) <> "database" ->
     run_action (Command.config_set H args) =
     (Return None,
      [LoadConfig;
       Stdout (String.append "Invalid key "
                 (String.append (First args) newline))])).
Proof.
  split.
  - intros Hn. unfold Command.config_set.
    apply Nat.eqb_neq in Hn. rewrite Hn. reflexivity.
  - intros cfg Hn Hl Hd Hb. unfold Command.config_set.
    rewrite Hn. simpl negb. cbv iota. unfold_cli. rewrite Hl.
    apply String.eqb_neq in Hd, Hb. rewrite Hd, Hb. reflexivity.
Qed.

Lemma config_set_rejects_without_storing_witness :
  let H := Host.mk (OK (Config.mk "draupnir.example" (Token.mk "" "") ""))
             (fun _ => None)
             (Client.mk (Err "") (Err "") (fun _ => Err "")
                (fun _ => Err "") (fun _ => Err "") (fun _ => None)
                (Err "") (fun _ _ => Err "") (fun _ => Err "")
                (fun _ => None) (fun _ => Err ""))
             (fun _ => None) 0 (fun _ => Err "") (fun _ => Err "")
             (fun _ => "") (fun s => s) (fun _ => "") in
  fst (run_action (Command.config_set H ["port"; "8443"])) = Return None /\
  fst (run_action (Command.config_set H ["domain"])) =
  Return (Some "Invalid arguments").
Proof.
  intros H. split.
  - rewrite (proj2 (config_set_rejects_without_storing H ["port"; "8443"])
               (Config.mk "draupnir.example" (Token.mk "" "") ""));
      [reflexivity|reflexivity|reflexivity|discriminate|discriminate].
  - rewrite (proj1 (config_set_rejects_without_storing H ["domain"]));
      [reflexivity|discriminate].
Defined.

(** X19: [config set] stores at most one configuration, and what it
    stores is the configuration it loaded with the one field named by the
    key set to the value: the token is never changed, and neither is the
    other field. *)
Theorem config_set_changes_one_field
  (H : Host.t) (args : list string) (c : Config.t) :
  let l := snd (run_action (Command.config_set H args)) in
  (List.length (stored_configs l) <= 1)%nat /\
  (In c (stored_configs l) ->
   exists cfg,
     Host.Load H = OK cfg /\
     List.length args = 2%nat /\
     Config.Token c = Config.Token cfg /\
     ((Host.ToLower H (First args) = "domain" /\
       c = Config.mk (Get 1 args) (Config.Token cfg) (Config.Database cfg))
      \/
      (Host.ToLower H (First args) = "database" /\
       c = Config.mk (Config.Domain cfg) (Config.Token cfg) (Get 1 args)))).
Proof.
  unfold Command.config_set.
  destruct (List.length args =? 2)%nat eqn:Hn; simpl negb; cbv iota.
  - apply Nat.eqb_eq in Hn. unfold_cli.
    destruct (Host.Load H) as [cfg|e]; [|simpl; split; [lia|tauto]].
    destruct (String.eqb (Host.ToLower H (First args)) "domain") eqn:Hd.
    + apply String.eqb_eq in Hd.
      destruct (Host.Store H _); simpl; (split; [lia|]);
        intros [Hc|[]]; subst c; exists cfg; repeat split; auto.
    + destruct (String.eqb (Host.ToLower H (First args)) "database") eqn:Hb.
      * apply String.eqb_eq in Hb.
        destruct (Host.Store H _); simpl; (split; [lia|]);
          intros [Hc|[]]; subst c; exists cfg; repeat split; auto.
      * simpl. split; [lia|tauto].
  - simpl. split; [lia|tauto].
Qed.

Lemma config_set_changes_one_field_witness :
  let H := test_host "" no_server in
  let c := Config.mk "draupnir.example" (Token.mk "0123456789abcdef" "")
             "payments" in
  exists cfg,
    Host.Load H = OK cfg /\
    List.length ["database"; "payments"] = 2%nat /\
    Config.Token c = Config.Token cfg /\
    ((Host.ToLower H (First ["database"; "payments"]) = "domain" /\
      c = Config.mk (Get 1 ["database"; "payments"]) (Config.Token cfg)
            (Config.Database cfg))
     \/
     (Host.ToLower H (First ["database"; "payments"]) = "database" /\
      c = Config.mk (Config.Domain cfg) (Config.Token cfg)
            (Get 1 ["database"; "payments"]))).
Proof.
  apply (proj2 (config_set_changes_one_field (test_host "" no_server)
                  ["database"; "payments"]
                  (Config.mk "draupnir.example"
                     (Token.mk "0123456789abcdef" "") "payments"))).
  left. reflexivity.
Defined.

(** ** [authenticate] *)

(** X20: with a refresh token in the configuration, [authenticate] says
    so and returns [nil] having opened no URL, called no API and stored
    nothing. *)
Theorem authenticate_twice_does_nothing (H : Host.t) (cfg : Config.t) :
  Host.Load H = OK cfg ->
  Token.RefreshToken (Config.Token cfg) <> "" ->
  run_action (Command.authenticate H) =
  (Return None,
   [LoadConfig; LoadConfig;
    Stdout (String.append "You're already authenticated." newline)]).
Proof.
  intros Hl Hr. unfold Command.authenticate. unfold_cli. rewrite Hl.
  apply String.eqb_neq in Hr. rewrite Hr. reflexivity.
Qed.

Lemma authenticate_twice_does_nothing_witness :
  remote_calls
    (snd (run_action (Command.authenticate (test_host "refresh" test_server))))
  = [] /\
  stored_configs
    (snd (run_action (Command.authenticate (test_host "refresh" test_server))))
  = [].
Proof.
  rewrite (authenticate_twice_does_nothing (test_host "refresh" test_server)
             (test_config "refresh") eq_refl); [split; reflexivity|].
  discriminate.
Defined.

(** X21: without a refresh token, [authenticate] asks the API for a token
    with the very state it put in the URL it opened.  When the API
    refuses, the error is returned and nothing is stored; when it grants a
    token, the one configuration stored is the loaded one with that token,
    domain and database unchanged. *)
Theorem authenticate_stores_the_granted_token (H : Host.t) (cfg : Config.t) :
  Host.Load H = OK cfg ->
  Token.RefreshToken (Config.Token cfg) = "" ->
  let state := fmt_d (Host.Int31 H) in
  let res := run_action (Command.authenticate H) in
  In (OpenURL (Command.authenticate_url cfg state)) (snd res) /\
  remote_calls (snd res) = [Client.CreateAccessToken state] /\
  match Client.createAccessToken (Host.client H) state with
  | Err e => fst res = Return (Some e) /\ stored_configs (snd res) = []
  | OK token =>
      stored_configs (snd res) =
        [Config.mk (Config.Domain cfg) token (Config.Database cfg)] /\
      (Host.Store H (Config.mk (Config.Domain cfg) token (Config.Database cfg))
       = None -> fst res = Return None)
  end.
Proof.
  intros Hl Hr state res. unfold res, Command.authenticate. unfold_cli.
  rewrite Hl. rewrite Hr. change (String.eqb "" "") with true.
  simpl negb. cbv iota. fold state.
  destruct (Host.open H (Command.authenticate_url cfg state)) as [e|];
    destruct (Client.createAccessToken (Host.client H) state) as [token|e'];
    try destruct (Host.Store H _) eqn:Hs; simpl;
    repeat split; auto; try discriminate.
Qed.

Lemma authenticate_stores_the_granted_token_witness :
  stored_configs
    (snd (run_action (Command.authenticate (test_host "" test_server))))
  = [Config.mk "draupnir.example" (Token.mk "access-1804289383" "refresh") ""].
Proof.
  destruct (authenticate_stores_the_granted_token (test_host "" test_server)
              (test_config "") eq_refl eq_refl) as [_ [_ H]].
  exact (proj1 H).
Defined.

(** ** The other commands *)

Ltac cli_cases :=
  repeat match goal with
         | |- context [match ?x with _ => _ end] => destruct x eqn:?
         end.

(** X22: the database [env] and [new] export is the configured one; only
    when none is configured is [PGDATABASE] read from the environment, and
    only when that is empty too is it [postgres].  It is never empty. *)
Theorem showExportCommand_database_precedence
  (H : Host.t) (config : Config.t) (instance : Instance.t) :
  exists database,
    printed (snd (showExportCommand H config instance [])) =
      [String.append "export PGHOST="
         (String.append (Config.Domain config)
            (String.append " PGPORT="
               (String.append (fmt_d (Instance.Port instance))
                  (String.append
                     " PGUSER=postgres PGPASSWORD='' PGDATABASE="
                     (String.append database newline)))))] /\
    database <> "" /\
    (Config.Database config <> "" ->
     database = Config.Database config /\
     ~ In (ReadsEnv "PGDATABASE")
          (snd (showExportCommand H config instance []))) /\
    (Config.Database config = "" ->
     Host.Getenv H "PGDATABASE" <> "" ->
     database = Host.Getenv H "PGDATABASE") /\
    (Config.Database config = "" -> Host.Getenv H "PGDATABASE" = "" ->
     database = "postgres").
Proof.
  unfold showExportCommand, export_database. unfold_cli.
  destruct (String.eqb (Config.Database config) "") eqn:Hd.
  - apply String.eqb_eq in Hd.
    destruct (String.eqb (Host.Getenv H "PGDATABASE") "") eqn:Hg.
    + apply String.eqb_eq in Hg. exists "postgres".
      split; [reflexivity|]. split; [discriminate|].
      split; [congruence|]. split; [congruence|reflexivity].
    + apply String.eqb_neq in Hg. exists (Host.Getenv H "PGDATABASE").
      split; [reflexivity|]. split; [exact Hg|].
      split; [congruence|]. split; [reflexivity|congruence].
  - apply String.eqb_neq in Hd. exists (Config.Database config).
    split; [reflexivity|]. split; [exact Hd|]. split; [|split; congruence].
    intros _. split; [reflexivity|]. simpl. intros [Hc|[]]. discriminate.
Qed.

(** X23: [instances destroy], [images destroy] and [env] without an
    identifier print that one is needed and return [nil]: the
    configuration is not read and no API call is made. *)
Theorem commands_without_id_do_nothing (H : Host.t) (args : list string) :
  First args = "" ->
  run_action (Command.instances_destroy H args) =
    (Return None,
     [Stdout (String.append "error: must supply an instance id" newline)]) /\
  run_action (Command.images_destroy H args) =
    (Return None,
     [Stdout (String.append "error: must supply an image id" newline)]) /\
  run_action (Command.env H args) =
    (Return None,
     [Stdout (String.append "error: must supply an instance id" newline)]).
Proof.
  intros Hf.
  unfold Command.instances_destroy, Command.images_destroy, Command.env.
  rewrite Hf. repeat split.
Qed.

Lemma commands_without_id_do_nothing_witness :
  fst (run_action (Command.images_destroy (test_host "" test_server) []))
  = Return None.
Proof.
  rewrite (proj1 (proj2 (commands_without_id_do_nothing
                           (test_host "" test_server) [] eq_refl))).
  reflexivity.
Defined.

(** X24: [images finalise] calls the API exactly when it has one argument
    and that argument is an integer, and then once, for that integer; any
    other command line ends with an error and no call. *)
Theorem images_finalise_calls_for_an_integer
  (H : Host.t) (args : list string) (cfg : Config.t) :
  Host.Load H = OK cfg ->
  let res := run_action (Command.images_finalise H args) in
  match args with
  | [s] =>
      match strconv.Atoi s with
      | OK n => remote_calls (snd res) = [Client.FinaliseImage n]
      | Err e =>
          remote_calls (snd res) = [] /\
          fst res = Return (Some (Wrap e "Invalid image ID"))
      end
  | _ =>
      remote_calls (snd res) = [] /\
      fst res = Return (Some "Missing image ID argument")
  end.
Proof.
  intros Hl res. unfold res, Command.images_finalise.
  destruct args as [|s [|s' args]].
  - unfold_cli. rewrite Hl. split; reflexivity.
  - change (First [s]) with s. unfold_cli. rewrite Hl.
    change (negb (List.length [s] =? 1)%nat) with false. cbv iota.
    destruct (strconv.Atoi s) as [n|e]; [|split; reflexivity].
    destruct (Client.finaliseImage (Host.client H) n); reflexivity.
  - unfold_cli. rewrite Hl. split; reflexivity.
Qed.

Lemma images_finalise_calls_for_an_integer_witness :
  remote_calls
    (snd (run_action
            (Command.images_finalise (test_host "" test_server) ["1"])))
  = [Client.FinaliseImage 1].
Proof.
  exact (images_finalise_calls_for_an_integer (test_host "" test_server)
           ["1"] (test_config "") eq_refl).
Defined.

Ltac in_calls :=
  simpl; intros;
  repeat match goal with
         | H : False |- _ => destruct H
         | H : _ \/ _ |- _ => destruct H
         | H : Remote _ = Remote _ |- _ => inversion H; clear H; subst
         | H : @eq Client.Call _ _ |- _ => inversion H; clear H; subst
         | H : @eq Effect _ _ |- _ => inversion H; clear H; subst
         end.

(** X25: the commands that look something up and then act on it act on
    what the server returned, and only then: [instances create] and [new]
    create an instance of the image that [GetLatestImage] (or, with an
    argument, [GetImage] of it) returned; [instances destroy] and
    [images destroy] destroy what [GetInstance] and [GetImage] returned for
    the argument.  When the lookup fails the second call is not made. *)
Theorem second_call_acts_on_what_the_first_returned
  (H : Host.t) (args : list string) :
  (forall image,
     In (Client.CreateInstance image)
        (remote_calls (snd (run_action (Command.instances_create H args)))) ->
     match args with
     | [] => Client.getLatestImage (Host.client H) = OK image
     | id :: _ => Client.getImage (Host.client H) id = OK image
     end) /\
  (forall image,
     In (Client.CreateInstance image)
        (remote_calls (snd (run_action (Command.new H)))) ->
     Client.getLatestImage (Host.client H) = OK image) /\
  (forall instance,
     In (Client.DestroyInstance instance)
        (remote_calls (snd (run_action (Command.instances_destroy H args)))) ->
     First args <> "" /\
     Client.getInstance (Host.client H) (First args) = OK instance) /\
  (forall image,
     In (Client.DestroyImage image)
        (remote_calls (snd (run_action (Command.images_destroy H args)))) ->
     First args <> "" /\
     Client.getImage (Host.client H) (First args) = OK image).
Proof.
  split; [|split; [|split]].
  - intros image. unfold Command.instances_create.
    destruct args as [|id args].
    + change (List.length (@nil string) =? 0)%nat with true. cbv iota.
      unfold showExportCommand, export_database. unfold_cli.
      destruct (Host.Load H); [|in_calls].
      destruct (Client.getLatestImage (Host.client H)) as [i|e]; [|in_calls].
      destruct (Client.createInstance (Host.client H) i); in_calls;
        try reflexivity.
    + change (List.length (id :: args) =? 0)%nat with false. cbv iota.
      change (First (id :: args)) with id. unfold_cli.
      destruct (Host.Load H); [|in_calls].
      destruct (Client.getImage (Host.client H) id) as [i|e]; [|in_calls].
      destruct (Client.createInstance (Host.client H) i); in_calls;
        try reflexivity.
  - intros image. unfold Command.new, showExportCommand, export_database.
    unfold_cli.
    destruct (Host.Load H); [|in_calls].
    destruct (Client.getLatestImage (Host.client H)) as [i|e]; [|in_calls].
    destruct (Client.createInstance (Host.client H) i);
      [|in_calls; reflexivity].
    destruct (String.eqb (Config.Database _) "");
      [destruct (String.eqb (Host.Getenv H "PGDATABASE") "")|];
      in_calls; try reflexivity.
  - intros instance. unfold Command.instances_destroy.
    destruct (String.eqb (First args) "") eqn:Hf; [in_calls|].
    apply String.eqb_neq in Hf. unfold_cli.
    destruct (Host.Load H); [|in_calls].
    destruct (Client.getInstance (Host.client H) (First args)) as [i|e];
      [|in_calls].
    destruct (Client.destroyInstance (Host.client H) i); in_calls;
      try (split; auto).
  - intros image. unfold Command.images_destroy.
    destruct (String.eqb (First args) "") eqn:Hf; [in_calls|].
    apply String.eqb_neq in Hf. unfold_cli.
    destruct (Host.Load H); [|in_calls].
    destruct (Client.getImage (Host.client H) (First args)) as [i|e];
      [|in_calls].
    destruct (Client.destroyImage (Host.client H) i); in_calls;
      try (split; auto).
Qed.

Lemma second_call_acts_on_what_the_first_returned_witness :
  Client.getInstance (Host.client (test_host "" test_server)) "4" =
  OK (Instance.mk 4 1 5435 timestamp timestamp).
Proof.
  apply (proj1 (proj2 (proj2 (second_call_acts_on_what_the_first_returned
                                (test_host "" test_server) ["4"])))
           (Instance.mk 4 1 5435 timestamp timestamp)).
  right. left. reflexivity.
Defined.

(** X26: [images create] sends an image to the server only after its two
    arguments have passed: there are exactly two, the first parses as a
    time and the second is a file that could be read - and what it sends
    is that time and that file's content.  The file is not even read
    unless the time parsed. *)
Theorem images_create_sends_validated_arguments
  (H : Host.t) (args : list string) :
  let l := snd (run_action (Command.images_create H args)) in
  (forall backedUpAt anon,
     In (Client.CreateImage backedUpAt anon) (remote_calls l) ->
     List.length args = 2%nat /\
     Host.ParseTime H (Get 0 args) = OK backedUpAt /\
     Host.ReadFile H (Get 1 args) = OK anon) /\
  (forall path,
     In (ReadsFile path) l ->
     List.length args = 2%nat /\ path = Get 1 args /\
     exists backedUpAt, Host.ParseTime H (Get 0 args) = OK backedUpAt).
Proof.
  unfold Command.images_create. unfold_cli.
  destruct (Host.Load H); [|split; in_calls; discriminate].
  destruct (List.length args =? 2)%nat eqn:Hn;
    [|split; in_calls; discriminate].
  apply Nat.eqb_eq in Hn. simpl negb. cbv iota.
  destruct (Host.ParseTime H (Get 0 args)) as [t|e];
    [|split; in_calls; discriminate].
  destruct (Host.ReadFile H (Get 1 args)) as [anon|e].
  - destruct (Client.createImage (Host.client H) t anon); split; in_calls;
      try discriminate; repeat split; eauto.
  - split; in_calls; try discriminate; repeat split; eauto.
Qed.

Lemma images_create_sends_validated_arguments_witness :
  Host.ReadFile (test_host "" test_server) "anon.sql" = OK "SELECT 1;".
Proof.
  apply (proj1 (images_create_sends_validated_arguments
                  (test_host "" test_server)
                  ["2016-01-01T12:33:44Z"; "anon.sql"]) timestamp "SELECT 1;").
  left. reflexivity.
Defined.

(** X27: when the configuration cannot be loaded, every command that
    needs it ends there with the fatal log: nothing is printed, stored or
    sent. *)
Theorem no_configuration_is_fatal
  (H : Host.t) (args : list string) (e : string) :
  Host.Load H = Err e ->
  let fatal := (Fatal "Could not load configuration", [LoadConfig]) in
  run_action (Command.config_show H) = fatal /\
  run_action (Command.authenticate H) = fatal /\
  run_action (Command.instances_list H) = fatal /\
  run_action (Command.instances_create H args) = fatal /\
  run_action (Command.images_list H) = fatal /\
  run_action (Command.images_create H args) = fatal /\
  run_action (Command.images_finalise H args) = fatal /\
  run_action (Command.new H) = fatal /\
  (List.length args = 2%nat ->
   run_action (Command.config_set H args) = fatal) /\
  (First args <> "" ->
   run_action (Command.instances_destroy H args) = fatal /\
   run_action (Command.images_destroy H args) = fatal /\
   run_action (Command.env H args) = fatal).
Proof.
  intros Hl fatal.
  unfold Command.config_show, Command.authenticate, Command.instances_list,
    Command.instances_create, Command.images_list, Command.images_create,
    Command.images_finalise, Command.new, Command.config_set,
    Command.instances_destroy, Command.images_destroy, Command.env.
  unfold_cli. rewrite Hl.
  repeat split;
    match goal with
    | Hf : First args <> "" |- _ =>
        apply String.eqb_neq in Hf; rewrite Hf; reflexivity
    | |- _ -> _ => intros Hn; rewrite Hn; reflexivity
    end.
Qed.

Lemma no_configuration_is_fatal_witness :
  let H := Host.mk (Err "open config: no such file or directory")
             (fun _ => None) test_server (fun _ => None) 0
             (fun _ => Err "") (fun _ => Err "") (fun _ => "") (fun s => s)
             (fun _ => "") in
  run_action (Command.new H) =
  (Fatal "Could not load configuration", [LoadConfig]).
Proof.
  intros H.
  destruct (no_configuration_is_fatal H []
              "open config: no such file or directory" eq_refl)
    as [_ [_ [_ [_ [_ [_ [_ [H8 _]]]]]]]].
  exact H8.
Defined.
